(** * scripts/render_synthetic_chart.py: the synthetic-trading line chart

    A shallow embedding of the script that loads
    [scripts/output/synthetic_trading_data.json], scales the series into
    pixel coordinates and writes an SVG document.

    Numbers.  A decoded JSON number is a Python [int] (unbounded, [Z]) or a
    Python [float] (binary64, with its infinities and NaN).  Floats are the
    [spec_float] of the standard library at precision 53 and maximal exponent
    1024; every operation rounds to nearest, ties to even, as the hardware
    does.  Mixed arithmetic converts the [int] operand to a float first and
    raises [OverflowError] when it does not fit; true division of two ints
    rounds the exact quotient once.  [spec_float] has more inhabitants than
    binary64 has numbers; the theorems hold for all of them.

    Effects.  The script reads one file, writes one file and prints one
    line.  A world holds the files, the working directory and what was
    printed; a statement maps a world to a result and a world.  The decoder,
    [str], the encoding of the output and [Path.resolve] are library code and
    are parameters of the script.  Failures of the operating system while a
    file that exists is read or written (permissions, a full disk) are not
    part of the model. *)

From Stdlib Require Import QArith Qround Qabs Lqa Ascii String.
From Stdlib Require Import SpecFloat.
From stdpp Require Import gmap strings list pretty.

Set Warnings "-register-all".
Local Open Scope Q_scope.

(** ** Exceptions and the result monad *)

Inductive exn :=
  | FileNotFoundError
  | JSONDecodeError
  | RecursionError
  | UnicodeDecodeError
  | UnicodeEncodeError
  | KeyError
  | TypeError
  | ValueError
  | OverflowError
  | ZeroDivisionError.

Inductive result (A : Type) :=
  | Ret (a : A)
  | Raise (e : exn).
Arguments Ret {A} a.
Arguments Raise {A} e.

Definition rbind {A B} (c : result A) (k : A -> result B) : result B :=
  match c with
  | Ret a => k a
  | Raise e => Raise e
  end.

Notation "x <- c ;; k" := (rbind c (fun x => k))
  (at level 100, c at next level, right associativity).

Fixpoint rmap {A B} (f : A -> result B) (l : list A) : result (list B) :=
  match l with
  | [] => Ret []
  | a :: l' => b <- f a ;; bs <- rmap f l' ;; Ret (b :: bs)
  end.

(** ** Binary64 *)

Definition prec : Z := 53.
Definition emax : Z := 1024.

Definition float : Set := spec_float.

Definition fadd : float -> float -> float := SFadd prec emax.
Definition fsub : float -> float -> float := SFsub prec emax.
Definition fmul : float -> float -> float := SFmul prec emax.
Definition fdiv : float -> float -> float := SFdiv prec emax.

Definition is_zero (f : float) : bool :=
  match f with S754_zero _ => true | _ => false end.

Definition is_finite (f : float) : bool :=
  match f with S754_zero _ | S754_finite _ _ _ => true | _ => false end.

Definition sign_bit (f : float) : bool :=
  match f with
  | S754_zero s | S754_infinity s | S754_finite s _ _ => s
  | S754_nan => false
  end.

(** The exact value of a finite float (0 for the others). *)
Definition float_Q (f : float) : Q :=
  match f with
  | S754_finite s m e =>
      let n := if s then Zneg m else Zpos m in
      match e with
      | Zneg p => n # (2 ^ p)
      | _ => inject_Z (n * 2 ^ e)
      end
  | _ => 0
  end.

(** The float nearest to an integer. *)
Definition float_of_Z (z : Z) : float := binary_normalize prec emax z 0 false.

(** An integer literal of the script as a float operand: the literals are
    small and convert exactly. *)
Definition lit (z : Z) : float := float_of_Z z.

(** The integers of this magnitude and above have no float: they lie at or
    beyond the midpoint between the largest float and 2^1024. *)
Definition float_limit : Z := 2 ^ 1024 - 2 ^ 970.

(** [float(z)], as mixed arithmetic and the [f] presentation apply it. *)
Definition int_to_float (z : Z) : result float :=
  if (float_limit <=? Z.abs z)%Z then Raise OverflowError
  else Ret (float_of_Z z).

(** The exact quotient of two integers, [b] not 0, rounded once. *)
Definition div_round (a b : Z) : float :=
  let s := xorb (a <? 0)%Z (b <? 0)%Z in
  match a with
  | Z0 => S754_zero s
  | _ =>
      let '(m, e, l) :=
        SFdiv_core_binary prec emax (Z.abs a) 0 (Z.abs b) 0 in
      binary_round_aux prec emax s m e l
  end.

(** [a / b] on two ints. *)
Definition int_truediv (a b : Z) : result float :=
  if (b =? 0)%Z then Raise ZeroDivisionError
  else if (float_limit * Z.abs b <=? Z.abs a)%Z then Raise OverflowError
  else Ret (div_round a b).

(** ** Python numbers *)

Inductive pynum :=
  | PInt (z : Z)
  | PFloat (f : float).

Definition to_float (a : pynum) : result float :=
  match a with
  | PInt z => int_to_float z
  | PFloat f => Ret f
  end.

(** [a - b] *)
Definition py_sub (a b : pynum) : result pynum :=
  match a, b with
  | PInt x, PInt y => Ret (PInt (x - y))
  | _, _ => fa <- to_float a ;; fb <- to_float b ;; Ret (PFloat (fsub fa fb))
  end.

(** [a / b] *)
Definition py_truediv (a b : pynum) : result float :=
  match a, b with
  | PInt x, PInt y => int_truediv x y
  | _, _ =>
      fa <- to_float a ;; fb <- to_float b ;;
      if is_zero fb then Raise ZeroDivisionError else Ret (fdiv fa fb)
  end.

Definition Qltb (x y : Q) : bool := negb (Qle_bool y x).

(** [a < b]; an int and a float are compared by their exact values. *)
Definition py_lt (a b : pynum) : bool :=
  match a, b with
  | PInt x, PInt y => (x <? y)%Z
  | PFloat f, PFloat g => SFltb f g
  | PInt x, PFloat g =>
      match g with
      | S754_nan => false
      | S754_infinity s => negb s
      | _ => Qltb (inject_Z x) (float_Q g)
      end
  | PFloat f, PInt y =>
      match f with
      | S754_nan => false
      | S754_infinity s => s
      | _ => Qltb (float_Q f) (inject_Z y)
      end
  end.


(** Truth value: zero is false, NaN is true. *)
Definition py_bool (a : pynum) : bool :=
  match a with
  | PInt z => negb (z =? 0)%Z
  | PFloat f => negb (is_zero f)
  end.

(** [a or 1] *)
Definition or_1 (a : pynum) : pynum := if py_bool a then a else PInt 1.

(** [min(values)] and [max(values)]: the first element is replaced by each
    later one that is smaller ([item < current]), respectively larger
    ([item > current]); [ValueError] on the empty list. *)
Definition py_min (values : list pynum) : result pynum :=
  match values with
  | [] => Raise ValueError
  | v :: tl => Ret (fold_left (fun m x => if py_lt x m then x else m) tl v)
  end.

Definition py_max (values : list pynum) : result pynum :=
  match values with
  | [] => Raise ValueError
  | v :: tl => Ret (fold_left (fun m x => if py_lt m x then x else m) tl v)
  end.

(** ** Number formatting *)

(** Round to the nearest integer, ties to the even one. *)
Definition round_half_even (q : Q) : Z :=
  let f := Qfloor q in
  match Qcompare (q - inject_Z f) (1 # 2) with
  | Lt => f
  | Gt => (f + 1)%Z
  | Eq => if Z.even f then f else (f + 1)%Z
  end.

Definition pad2 (n : Z) : string :=
  if (n <? 10)%Z then "0" +:+ pretty n else pretty n.

Definition sign_str (f : float) : string := if sign_bit f then "-" else "".

(** [f"{x:.2f}"] on a float: the exact value, rounded to two decimals. *)
Definition fmt_2f (f : float) : string :=
  match f with
  | S754_nan => "nan"
  | S754_infinity s => if s then "-inf" else "inf"
  | _ =>
      let n := round_half_even (Qabs (float_Q f) * 100) in
      sign_str f +:+ pretty (n / 100)%Z +:+ "." +:+ pad2 (n mod 100)%Z
  end.

(** Thousands separators, on the digits from the least significant one. *)
Fixpoint group3 (l : list ascii) : list ascii :=
  match l with
  | a :: b :: c :: ((_ :: _) as tl) => a :: b :: c :: ","%char :: group3 tl
  | _ => l
  end.

Definition with_commas (digits : string) : string :=
  string_of_list_ascii
    (rev (group3 (rev (list_ascii_of_string digits)))).

(** [f"{x:,.0f}"] on a float. *)
Definition fmt_comma_0f (f : float) : string :=
  match f with
  | S754_nan => "nan"
  | S754_infinity s => if s then "-inf" else "inf"
  | _ =>
      sign_str f +:+
      with_commas (pretty (round_half_even (Qabs (float_Q f))))
  end.

(** [str] of a float with a short exact decimal expansion: the digits after
    the point, at least one. *)
Fixpoint frac_digits (fuel : nat) (r : Q) : string :=
  match fuel with
  | O => ""
  | S fuel' =>
      let d := Qfloor (r * 10) in
      let r' := r * 10 - inject_Z d in
      pretty d +:+ (if Qeq_bool r' 0 then "" else frac_digits fuel' r')
  end.

Definition float_str (f : float) : string :=
  match f with
  | S754_nan => "nan"
  | S754_infinity s => if s then "-inf" else "inf"
  | _ =>
      let a := Qabs (float_Q f) in
      let i := Qfloor a in
      sign_str f +:+ pretty i +:+ "." +:+ frac_digits 17 (a - inject_Z i)
  end.

(** ** Chart geometry (lines 14-27) *)

Definition width : Z := 900.
Definition height : Z := 420.
Definition padding : Z := 60.
Definition usable_width : Z := width - 2 * padding.
Definition usable_height : Z := height - 2 * padding.

(** The y of line 26, from the quotient [r] of its division. *)
Definition coord_y (r : float) : float :=
  fadd (lit padding) (fmul (lit usable_height) (fsub (lit 1) r)).

(** One iteration of the loop of lines 24-27; [n] is [len(values)].  The
    division by [len(values) - 1] is a division of two ints; the division by
    the literal 2 cannot raise. *)
Definition coord (n : nat) (min_val val_range : pynum) (idx : nat)
    (value : pynum) : result (float * float) :=
  x <- (if (1 <? n)%nat
        then q <- int_truediv (usable_width * Z.of_nat idx) (Z.of_nat n - 1) ;;
             Ret (fadd (lit padding) q)
        else Ret (fadd (lit padding) (div_round usable_width 2))) ;;
  d <- py_sub value min_val ;;
  r <- py_truediv d val_range ;;
  Ret (x, coord_y r).

(** The x of line 25 on a run in which its division does not raise. *)
Definition coord_x (n idx : nat) : float :=
  if (1 <? n)%nat
  then fadd (lit padding)
            (div_round (usable_width * Z.of_nat idx) (Z.of_nat n - 1))
  else fadd (lit padding) (div_round usable_width 2).

(** The same x in exact arithmetic. *)
Definition x_exact (n idx : nat) : Q :=
  inject_Z padding +
  inject_Z usable_width * inject_Z (Z.of_nat idx) /
  (inject_Z (Z.of_nat n) - 1).

(** [enumerate(l)], counting from [i]. *)
Fixpoint enumerate_from {A} (i : nat) (l : list A) : list (nat * A) :=
  match l with
  | [] => []
  | a :: l' => (i, a) :: enumerate_from (S i) l'
  end.

Definition enumerate {A} (l : list A) : list (nat * A) := enumerate_from 0 l.

(** Lines 19-27: the scaled points of a series of values. *)
Definition coords (values : list pynum) : result (list (float * float)) :=
  min_val <- py_min values ;;
  max_val <- py_max values ;;
  d <- py_sub max_val min_val ;;
  let val_range := or_1 d in
  rmap (fun iv => coord (length values) min_val val_range iv.1 iv.2)
       (enumerate values).

(** Lines 19-21 on a series of ints: the smallest, the largest, and the
    range with its fallback. *)
Definition zmin (zs : list Z) : Z :=
  match zs with
  | [] => 0
  | z :: tl => fold_left Z.min tl z
  end.

Definition zmax (zs : list Z) : Z :=
  match zs with
  | [] => 0
  | z :: tl => fold_left Z.max tl z
  end.

Definition int_range (zs : list Z) : Z :=
  if (zmax zs - zmin zs =? 0)%Z then 1%Z else (zmax zs - zmin zs)%Z.

(** ** SVG markup (lines 29-51) *)

Definition dq : string := String "034"%char "".
Definition nl : string := String "010"%char "".

Definition path_d (cs : list (float * float)) : string :=
  "M " +:+
  String.concat " L " (map (fun c => fmt_2f c.1 +:+ " " +:+ fmt_2f c.2) cs).

Definition svg_open : list string :=
  [ "<svg xmlns='http://www.w3.org/2000/svg' width='" +:+ pretty width +:+
      "' height='" +:+ pretty height +:+ "' viewBox='0 0 " +:+
      pretty width +:+ " " +:+ pretty height +:+ "'>";
    "  <rect width='100%' height='100%' fill='#0b1120' rx='16' />";
    "  <g stroke='#1f2937' stroke-width='1'>" ].

(** Body of the loop of lines 39-41. *)
Definition grid_y (i : nat) : float :=
  fadd (lit padding) (div_round (usable_height * Z.of_nat i) 4).

Definition grid_line (i : nat) : string :=
  let y := grid_y i in
  "    <line x1='" +:+ pretty padding +:+ "' y1='" +:+ fmt_2f y +:+
  "' x2='" +:+ pretty (width - padding)%Z +:+ "' y2='" +:+ fmt_2f y +:+
  "' stroke-opacity='0.4' />".

Definition path_line (cs : list (float * float)) : string :=
  "  <path d='" +:+ path_d cs +:+
  "' fill='none' stroke='#38bdf8' stroke-width='3' stroke-linecap='round' stroke-linejoin='round' />".

Definition circle_line (c : float * float) : string :=
  "  <circle cx='" +:+ fmt_2f c.1 +:+ "' cy='" +:+ fmt_2f c.2 +:+
  "' r='5' fill='#f97316' stroke='#fff' stroke-width='2' />".

Definition label_line (c : float * float) (label : string) : string :=
  "  <text x='" +:+ fmt_2f c.1 +:+ "' y='" +:+
  fmt_2f (fsub (lit height) (div_round padding 2)) +:+
  "' fill='#e2e8f0' font-size='14' text-anchor='middle'>" +:+ label +:+
  "</text>".

(** [value] is the float that the [f] presentation of line 48 formats. *)
Definition value_line (c : float * float) (value : float) : string :=
  "  <text x='" +:+ fmt_2f c.1 +:+ "' y='" +:+ fmt_2f (fsub c.2 (lit 12)) +:+
  "' fill='#38bdf8' font-size='12' text-anchor='middle'>$" +:+
  fmt_comma_0f value +:+ "</text>".

Definition title_line : string :=
  "  <text x=" +:+ dq +:+ float_str (div_round width 2) +:+ dq +:+
  " y=" +:+ dq +:+ float_str (div_round padding 2) +:+ dq +:+
  " fill=" +:+ dq +:+ "#e2e8f0" +:+ dq +:+
  " font-size=" +:+ dq +:+ "16" +:+ dq +:+
  " font-weight=" +:+ dq +:+ "bold" +:+ dq +:+
  ">Synthetic trading performance (weekends skipped)</text>".

(** Body of the loop of lines 45-48: the three elements of one point. *)
Definition point_lines (item : (float * float) * (string * float))
  : list string :=
  let '(c, (label, value)) := item in
  [ circle_line c; label_line c label; value_line c value ].

(** [svg_lines] as it stands at line 52.  [labels] are the texts that the
    f-string of line 47 inserts, [values] the floats that the one of line 48
    formats. *)
Definition svg_lines (cs : list (float * float)) (labels : list string)
    (values : list float) : list string :=
  svg_open ++ map grid_line (seq 0 5) ++ ["  </g>"] ++ [path_line cs] ++
  flat_map point_lines (zip cs (zip labels values)) ++
  [title_line; "</svg>"].

(** ** Decoded JSON values, as [json.load] returns them *)

Inductive json :=
  | JNull
  | JBool (b : bool)
  | JNum (n : pynum)
  | JStr (s : string)
  | JArr (l : list json)
  | JObj (m : gmap string json).

(** [obj[key]] for a string key. *)
Definition getitem (key : string) (obj : json) : result json :=
  match obj with
  | JObj m => match m !! key with
              | Some v => Ret v
              | None => Raise KeyError
              end
  | _ => Raise TypeError
  end.

(** The elements that [for p in obj] visits: those of a list, the keys of a
    dict, the characters of a string. *)
Definition iter (obj : json) : result (list json) :=
  match obj with
  | JArr l => Ret l
  | JObj m => Ret (map (fun kv => JStr kv.1) (map_to_list m))
  | JStr s => Ret (map (fun c => JStr (String c "")) (list_ascii_of_string s))
  | _ => Raise TypeError
  end.

(** The number a decoded value stands for in arithmetic: a JSON number, or
    a Boolean ([True] is the int 1).  On a non-empty list with any other
    value, lines 19-21 raise [TypeError]: [min] or [max] on comparing it with
    a number, or else the subtraction; comparing numbers does not raise. *)
Definition number (v : json) : result pynum :=
  match v with
  | JNum n => Ret n
  | JBool b => Ret (PInt (if b then 1 else 0))
  | _ => Raise TypeError
  end.

(** ** The script *)

(** What the script sees of its environment: the files by the path the
    script names them with, the working directory, and what has been
    printed. *)
Record world := World {
  files : gmap string string;
  cwd : string;
  stdout : list string
}.

Definition DATA_PATH : string := "scripts/output/synthetic_trading_data.json".
Definition OUTPUT_PATH : string := "scripts/output/synthetic_chart.svg".

(** State and exceptions: a statement runs in a world and either returns a
    value or raises, leaving the world it reached. *)
Definition io (A : Type) : Type := world -> result A * world.

Definition io_ret {A} (a : A) : io A := fun w => (Ret a, w).

Definition io_bind {A B} (c : io A) (k : A -> io B) : io B :=
  fun w =>
    match c w with
    | (Ret a, w') => k a w'
    | (Raise e, w') => (Raise e, w')
    end.

Notation "x <~ c ;; k" := (io_bind c (fun x => k))
  (at level 100, c at next level, right associativity).

Definition io_lift {A} (r : result A) : io A := fun w => (r, w).

(** [path.open()] followed by reading the whole file. *)
Definition read_text (path : string) : io string :=
  fun w =>
    match files w !! path with
    | Some text => (Ret text, w)
    | None => (Raise FileNotFoundError, w)
    end.

(** [print(line)] *)
Definition print (line : string) : io unit :=
  fun w =>
    (Ret tt, {| files := files w; cwd := cwd w;
                stdout := stdout w ++ [line] |}).

Section Script.

(** [json.load] on the text of a file: the decoded value, or the exception
    of the decoder.  [str] on a decoded value.  Whether the encoding of the
    locale can encode a text.  [Path.resolve] of a relative path in a working
    directory. *)
Variable json_load : string -> result json.
Variable py_str : json -> string.
Variable encodable : string -> bool.
Variable resolve : string -> string -> string.

(** [path.write_text(text)]: the file is opened for writing, which empties
    it, then the text is encoded and written. *)
Definition write_text (path text : string) : io unit :=
  fun w =>
    if encodable text
    then (Ret tt, {| files := <[path := text]> (files w);
                     cwd := cwd w; stdout := stdout w |})
    else (Raise UnicodeEncodeError,
          {| files := <[path := ""]> (files w);
             cwd := cwd w; stdout := stdout w |}).

(** Lines 10-52: from the decoded payload to the text to write.  The [f]
    presentation of line 48 converts each value to a float; these
    conversions are the only statements of the loop of lines 45-48 that can
    raise, and they are run ahead of it. *)
Definition render (payload : json) : result string :=
  points <- getitem "points" payload ;;
  ps <- iter points ;;
  values <- rmap (getitem "totalValue") ps ;;
  labels <- rmap (getitem "label") ps ;;
  nums <- rmap number values ;;
  cs <- coords nums ;;
  shown <- rmap to_float nums ;;
  Ret (String.concat nl (svg_lines cs (map py_str labels) shown)).

(** The world after line 53 has written [text], and after line 53 has
    failed to encode it. *)
Definition written (w : world) (text : string) : world :=
  {| files := <[OUTPUT_PATH := text]> (files w);
     cwd := cwd w; stdout := stdout w |}.

Definition truncated (w : world) : world := written w "".

(** The world at the end of a successful run. *)
Definition done_world (w : world) (svg : string) : world :=
  {| files := <[OUTPUT_PATH := svg]> (files w); cwd := cwd w;
     stdout := stdout w ++ ["Saved chart to " +:+ resolve (cwd w) OUTPUT_PATH] |}.

Definition main : io unit :=
  text <~ read_text DATA_PATH ;;
  payload <~ io_lift (json_load text) ;;
  svg <~ io_lift (render payload) ;;
  _ <~ write_text OUTPUT_PATH svg ;;
  fun w => print ("Saved chart to " +:+ resolve (cwd w) OUTPUT_PATH) w.

End Script.

(** ** Reading the output back *)

(** The entries of [svg_lines] that are point markers, and those that are
    gridlines. *)
Definition is_circle (line : string) : bool := String.prefix "  <circle " line.
Definition is_grid (line : string) : bool := String.prefix "    <line " line.

(** ** Sample inputs *)

(** The decoded form of a well-formed input file: an object whose [points]
    is the array of the [label]/[totalValue] objects of a series. *)
Definition point (lv : string * pynum) : json :=
  JObj (<["label" := JStr lv.1]> (<["totalValue" := JNum lv.2]> ∅)).

Definition payload_of (ps : list json) : json :=
  JObj (<["points" := JArr ps]> ∅).

Definition series_payload (series : list (string * pynum)) : json :=
  payload_of (map point series).

Definition example_series : list (string * pynum) :=
  [("W1", PInt 1000); ("W2", PInt 1500); ("W3", PInt 1200)].

Definition quoted (s : string) : string := dq +:+ s +:+ dq.

Definition empty_text : string := "{" +:+ quoted "points" +:+ ": []}".

Definition example_text : string :=
  "{" +:+ quoted "points" +:+ ": [" +:+
  "{" +:+ quoted "label" +:+ ": " +:+ quoted "W1" +:+ ", " +:+
          quoted "totalValue" +:+ ": 1000}, " +:+
  "{" +:+ quoted "label" +:+ ": " +:+ quoted "W2" +:+ ", " +:+
          quoted "totalValue" +:+ ": 1500}, " +:+
  "{" +:+ quoted "label" +:+ ": " +:+ quoted "W3" +:+ ", " +:+
          quoted "totalValue" +:+ ": 1200}]}".

(** A label that no encoding accepts: the lone surrogate U+D800, which the
    JSON text writes as an escape; the decoded string holds it as the three
    bytes of its generalised UTF-8 form. *)
Definition surrogate_label : string :=
  String "237"%char (String "160"%char (String "128"%char "")).

Definition surrogate_text : string :=
  "{" +:+ quoted "points" +:+ ": [" +:+
  "{" +:+ quoted "label" +:+ ": " +:+ quoted "\ud800" +:+ ", " +:+
          quoted "totalValue" +:+ ": 1000}]}".

(** A text holds a surrogate: the byte 237 followed by a byte from 160. *)
Fixpoint has_surrogate (s : string) : bool :=
  match s with
  | String a ((String b _) as tl) =>
      ((nat_of_ascii a =? 237)%nat && (160 <=? nat_of_ascii b)%nat)
      || has_surrogate tl
  | _ => false
  end.

(** [json.load], [str], the encoding and [resolve] restricted to what the
    sample runs meet: the three texts above (any other text is taken as
    undecodable), string labels, a UTF-8 locale, and a working directory
    other than the root, without links. *)
Definition sample_load (text : string) : result json :=
  if String.eqb text empty_text then Ret (series_payload [])
  else if String.eqb text example_text then Ret (series_payload example_series)
  else if String.eqb text surrogate_text
       then Ret (series_payload [(surrogate_label, PInt 1000)])
  else Raise JSONDecodeError.

Definition sample_str (v : json) : string :=
  match v with JStr s => s | _ => "" end.

Definition sample_encodable (text : string) : bool :=
  negb (has_surrogate text).

Definition sample_resolve (dir path : string) : string :=
  dir +:+ "/" +:+ path.

Definition sample_main : io unit :=
  main sample_load sample_str sample_encodable sample_resolve.

Definition world_with (text : string) : world :=
  {| files := {[ DATA_PATH := text ]}; cwd := "/srv/arena"; stdout := [] |}.

(** Another world with the same input file: a stale chart is in place, the
    working directory and the earlier output differ. *)
Definition world_stale (text : string) : world :=
  {| files := <[ OUTPUT_PATH := "<svg/>" ]> {[ DATA_PATH := text ]};
     cwd := "/tmp/run2"; stdout := ["starting"] |}.


Definition f_half : float := S754_finite false 4503599627370496 (-53).

(** ** Kinds of series *)

Definition is_int (v : pynum) : bool :=
  match v with PInt _ => true | PFloat _ => false end.

Definition is_float (v : pynum) : bool :=
  match v with PInt _ => false | PFloat _ => true end.

(** The numbers that have a float: every float, and the ints below
    [float_limit] in magnitude. *)
Definition fits (v : pynum) : bool :=
  match v with
  | PInt z => (Z.abs z <? float_limit)%Z
  | PFloat _ => true
  end.

Definition py_finite (v : pynum) : bool :=
  match v with PInt _ => true | PFloat f => is_finite f end.

(** A series of ints only, or of floats only. *)
Definition one_kind (values : list pynum) : Prop :=
  Forall (fun v => is_int v = true) values \/
  Forall (fun v => is_float v = true) values.

(** ** Floats between two integers *)

(** [r] is a finite float that is not negative, written with an exponent
    that is not positive, and its value lies between the integers [lo] and
    [hi]. *)
Definition within (lo hi : Z) (r : float) : Prop :=
  match r with
  | S754_zero _ => (lo <= 0)%Z
  | S754_finite false m e =>
      (e <= 0 /\ lo * 2 ^ (- e) <= Zpos m <= hi * 2 ^ (- e))%Z
  | _ => False
  end.

(** [x] is the positive float of integer value [c]. *)
Definition holds (c : Z) (x : float) : Prop :=
  exists m e, x = S754_finite false m e /\ (e <= 0)%Z /\
              (Zpos m = c * 2 ^ (- e))%Z.

(** ** The result monad on lists *)

Lemma rmap_map_ret {A B C} (f : B -> result C) (h : A -> B) (g : A -> C)
    (l : list A) :
  (forall a, f (h a) = Ret (g a)) -> rmap f (map h l) = Ret (map g l).
Proof.
  intros H. induction l as [|a l IH]; simpl; [reflexivity |].
  now rewrite H, IH.
Qed.

Lemma rmap_raise {A B} (f : A -> result B) (l : list A) (e : exn) :
  rmap f l = Raise e -> exists a, In a l /\ f a = Raise e.
Proof.
  induction l as [|a l IH]; simpl; [discriminate |].
  destruct (f a) as [b|e'] eqn:Ef; simpl.
  - destruct (rmap f l) as [bs|e'']; simpl; [discriminate |].
    intros [= <-]. destruct IH as (a' & Ha & Hf); [reflexivity |].
    exists a'. split; [now right | exact Hf].
  - intros [= <-]. exists a. split; [now left | exact Ef].
Qed.

(** The first element on which [f] raises decides the result, when every
    other failure would be the same exception. *)
Lemma rmap_some_raise {A B} (f : A -> result B) (l : list A) (e : exn) :
  (forall a e', In a l -> f a = Raise e' -> e' = e) ->
  (exists a, In a l /\ f a = Raise e) ->
  rmap f l = Raise e.
Proof.
  intros Hall (a & Ha & Hf).
  destruct (rmap f l) as [bs|e'] eqn:Er.
  - exfalso. revert bs Er. induction l as [|a' l IH]; [destruct Ha |].
    intros bs. simpl. destruct (f a') as [b|e0] eqn:Ef; simpl; [| discriminate].
    destruct (rmap f l) as [bs'|e0] eqn:Er'; simpl; [| discriminate].
    intros _. destruct Ha as [-> | Ha]; [congruence |].
    eapply IH; [| exact Ha | reflexivity].
    intros a0 e0 H0. apply Hall. now right.
  - apply rmap_raise in Er. destruct Er as (a' & Ha' & Hf').
    now rewrite (Hall a' e' Ha' Hf').
Qed.

Lemma rmap_ret_inv {A B} (f : A -> result B) (l : list A) (bs : list B) :
  rmap f l = Ret bs -> Forall2 (fun a b => f a = Ret b) l bs.
Proof.
  revert bs. induction l as [|a l IH]; intros bs; simpl.
  - intros [= <-]. constructor.
  - destruct (f a) as [b|] eqn:Ef; simpl; [| discriminate].
    destruct (rmap f l) as [bs'|]; simpl; [| discriminate].
    intros [= <-]. constructor; [exact Ef | now apply IH].
Qed.

Lemma rmap_ret_all {A B} (f : A -> result B) (l : list A) (bs : list B)
    (a : A) :
  rmap f l = Ret bs -> In a l -> exists b, In b bs /\ f a = Ret b.
Proof.
  intros H Ha. apply rmap_ret_inv in H.
  induction H as [|a' b' l' bs' Hab _ IH]; [destruct Ha |].
  destruct Ha as [-> | Ha].
  - exists b'. split; [now left | exact Hab].
  - destruct (IH Ha) as (b & Hb & Hf). exists b. split; [now right | exact Hf].
Qed.

Lemma enumerate_from_lookup {A} (l : list A) (k i : nat) :
  enumerate_from k l !! i = option_map (fun a => ((k + i)%nat, a)) (l !! i).
Proof.
  revert k i. induction l as [|a l IH]; intros k i; [reflexivity |].
  destruct i as [|i]; simpl.
  - now rewrite Nat.add_0_r.
  - rewrite IH. now rewrite Nat.add_succ_r.
Qed.

Lemma enumerate_from_length {A} (l : list A) (k : nat) :
  length (enumerate_from k l) = length l.
Proof. revert k. induction l as [|a l IH]; intros k; simpl; auto. Qed.

Local Open Scope Z_scope.

(** ** Shifting a mantissa to the right *)

Lemma iter_pos_iter {A} (f : A -> A) (p : positive) (x : A) :
  SpecFloat.iter_pos f p x = Pos.iter f x p.
Proof.
  revert x. induction p as [p IH|p IH|]; intros x; simpl.
  - rewrite !IH. now rewrite !Pos.iter_swap.
  - now rewrite !IH.
  - reflexivity.
Qed.

Lemma shr_1_m (mrs : shr_record) :
  0 <= shr_m mrs -> shr_m (shr_1 mrs) = shr_m mrs / 2.
Proof.
  destruct mrs as [m r s]. simpl. intros Hm. rewrite <- Z.div2_div.
  destruct m as [|[p|p|]|p]; try reflexivity. lia.
Qed.

Lemma shr_iter_m (k : positive) (mrs : shr_record) :
  0 <= shr_m mrs ->
  shr_m (Pos.iter shr_1 mrs k) = shr_m mrs / 2 ^ Zpos k.
Proof.
  intros Hm. induction k as [|k IH] using Pos.peano_ind.
  - simpl. rewrite shr_1_m by exact Hm. reflexivity.
  - rewrite Pos.iter_succ, shr_1_m.
    + rewrite IH, Pos2Z.inj_succ, Z.pow_succ_r by lia.
      rewrite Z.div_div by lia. f_equal. lia.
    + rewrite IH. apply Z.div_pos; lia.
Qed.

Lemma shr_1_double (h : Z) :
  0 <= h ->
  shr_1 (Build_shr_record (2 * h) false false) = Build_shr_record h false false.
Proof. intros _. destruct h as [|p|p]; reflexivity. Qed.

Lemma shr_iter_exact (k : positive) (h : Z) :
  0 <= h ->
  Pos.iter shr_1 (Build_shr_record (h * 2 ^ Zpos k) false false) k =
  Build_shr_record h false false.
Proof.
  intros Hh. induction k as [|k IH] using Pos.peano_ind.
  - simpl Pos.iter. change (2 ^ 1) with 2. rewrite Z.mul_comm.
    now apply shr_1_double.
  - rewrite Pos.iter_succ_r.
    replace (h * 2 ^ Zpos (Pos.succ k)) with (2 * (h * 2 ^ Zpos k))
      by (rewrite Pos2Z.inj_succ, Z.pow_succ_r by lia; lia).
    rewrite shr_1_double; [exact IH |].
    apply Z.mul_nonneg_nonneg; lia.
Qed.

Lemma shr_record_of_loc_m (m : Z) (l : location) :
  shr_m (shr_record_of_loc m l) = m.
Proof. destruct l as [|[]]; reflexivity. Qed.

(** What [shr] does, for a shift that may be zero or negative. *)
Lemma shr_spec (m e n : Z) (l : location) :
  0 <= m ->
  let k := Z.max 0 n in
  snd (shr (shr_record_of_loc m l) e n) = e + k /\
  shr_m (fst (shr (shr_record_of_loc m l) e n)) = m / 2 ^ k /\
  (l = loc_Exact -> forall h, 0 <= h -> m = h * 2 ^ k ->
   loc_of_shr_record (fst (shr (shr_record_of_loc m l) e n)) = loc_Exact).
Proof.
  intros Hm k. unfold shr. destruct n as [|p|p]; simpl.
  - replace k with 0 by reflexivity. rewrite Z.add_0_r, Z.div_1_r.
    split; [reflexivity |]. split; [apply shr_record_of_loc_m |].
    intros -> h _ _. reflexivity.
  - assert (Hk : k = Zpos p) by (unfold k; lia). rewrite Hk.
    rewrite iter_pos_iter. split; [reflexivity |]. split.
    + rewrite shr_iter_m; rewrite shr_record_of_loc_m; [reflexivity | exact Hm].
    + intros -> h Hh ->. simpl shr_record_of_loc.
      change (Z.pow_pos 2 p) with (2 ^ Zpos p).
      rewrite shr_iter_exact by exact Hh. reflexivity.
  - replace k with 0 by reflexivity. rewrite Z.add_0_r, Z.div_1_r.
    split; [reflexivity |]. split; [apply shr_record_of_loc_m |].
    intros -> h _ _. reflexivity.
Qed.

Lemma round_nearest_even_bounds (m : Z) (l : location) :
  m <= round_nearest_even m l <= m + 1 /\
  (l = loc_Exact -> round_nearest_even m l = m).
Proof.
  split; [| intros ->; reflexivity].
  destruct l as [|[]]; simpl; try lia. destruct (Z.even m); lia.
Qed.

(** ** Number of binary digits *)

Lemma digits2_pos_bounds (p : positive) :
  2 ^ (Zpos (digits2_pos p) - 1) <= Zpos p < 2 ^ Zpos (digits2_pos p).
Proof.
  induction p as [p IH|p IH|]; simpl digits2_pos.
  - rewrite Pos2Z.inj_succ.
    replace (Z.succ (Zpos (digits2_pos p)) - 1)
      with (Z.succ (Zpos (digits2_pos p) - 1)) by lia.
    rewrite !Z.pow_succ_r by lia. lia.
  - rewrite Pos2Z.inj_succ.
    replace (Z.succ (Zpos (digits2_pos p)) - 1)
      with (Z.succ (Zpos (digits2_pos p) - 1)) by lia.
    rewrite !Z.pow_succ_r by lia. lia.
  - simpl. lia.
Qed.

Lemma Zdigits2_le (m g : Z) : 0 <= m -> 0 <= g -> m < 2 ^ g -> Zdigits2 m <= g.
Proof.
  intros Hm Hg Hlt. destruct m as [|p|p]; simpl; [lia | | lia].
  destruct (digits2_pos_bounds p) as [Hlo _].
  destruct (Z_le_gt_dec (Zpos (digits2_pos p)) g) as [H | H]; [exact H |].
  exfalso.
  assert (2 ^ g <= 2 ^ (Zpos (digits2_pos p) - 1))
    by (apply Z.pow_le_mono_r; lia).
  lia.
Qed.

Lemma fexp_nonpos (m e : Z) :
  0 <= m -> e <= 0 -> m < 2 ^ (prec - e) ->
  fexp prec emax (Zdigits2 m + e) <= 0.
Proof.
  intros Hm He Hlt. unfold fexp, emin, prec, emax in *.
  pose proof (Zdigits2_le m (53 - e) Hm ltac:(lia) Hlt). lia.
Qed.

(** ** Rounding between two integers *)

Lemma binary_round_aux_within (m e lo hi : Z) (l : location) :
  0 <= m -> e <= 0 -> 0 <= lo -> hi < 2 ^ prec ->
  lo * 2 ^ (- e) <= m ->
  (m < hi * 2 ^ (- e) \/ (m = hi * 2 ^ (- e) /\ l = loc_Exact)) ->
  within lo hi (binary_round_aux prec emax false m e l).
Proof.
  intros Hm He Hlo Hhi Hl Hu.
  assert (Hp : 0 < 2 ^ (- e)) by (apply Z.pow_pos_nonneg; lia).
  assert (Hhi0 : 0 <= hi) by nia.
  assert (Hmhi : m <= hi * 2 ^ (- e)) by (destruct Hu as [? | [? _]]; lia).
  assert (Hmlt : m < 2 ^ (prec - e)).
  { replace (prec - e) with (prec + - e) by lia.
    rewrite Z.pow_add_r by (unfold prec; lia).
    assert (hi * 2 ^ (- e) < 2 ^ prec * 2 ^ (- e))
      by (apply Z.mul_lt_mono_pos_r; lia). lia. }
  unfold binary_round_aux, shr_fexp.
  set (n1 := fexp prec emax (Zdigits2 m + e) - e).
  destruct (shr_spec m e n1 l Hm) as (He1 & Hm1 & Hx1).
  destruct (shr (shr_record_of_loc m l) e n1) as [mrs1 e1].
  cbn [fst snd] in *.
  set (k1 := Z.max 0 n1) in *.
  assert (Hk1 : 0 <= k1) by (unfold k1; lia).
  assert (He1' : e1 <= 0).
  { pose proof (fexp_nonpos m e Hm He Hmlt). unfold k1, n1 in *. lia. }
  assert (Hpk : 0 < 2 ^ k1) by (apply Z.pow_pos_nonneg; lia).
  assert (Hp1 : 0 < 2 ^ (- e1)) by (apply Z.pow_pos_nonneg; lia).
  assert (Hsplit : 2 ^ (- e) = 2 ^ (- e1) * 2 ^ k1).
  { rewrite <- Z.pow_add_r by lia. f_equal. lia. }
  destruct (round_nearest_even_bounds (shr_m mrs1) (loc_of_shr_record mrs1))
    as [[Hr1 Hr2] Hr3].
  set (m1 := round_nearest_even (shr_m mrs1) (loc_of_shr_record mrs1)) in *.
  assert (Hlo1 : lo * 2 ^ (- e1) <= shr_m mrs1).
  { rewrite Hm1. apply Z.div_le_lower_bound; [lia |]. rewrite Hsplit in Hl. lia. }
  assert (Hhi1 : m1 <= hi * 2 ^ (- e1)).
  { destruct Hu as [Hu | [Hu ->]].
    - assert (shr_m mrs1 < hi * 2 ^ (- e1)); [| lia].
      rewrite Hm1. apply Z.div_lt_upper_bound; [lia |].
      rewrite Hsplit in Hu. lia.
    - assert (Heq : m = (hi * 2 ^ (- e1)) * 2 ^ k1) by (rewrite Hu, Hsplit; lia).
      rewrite (Hr3 (Hx1 eq_refl (hi * 2 ^ (- e1)) ltac:(nia) Heq)).
      rewrite Hm1, Heq, Z.div_mul by lia. lia. }
  assert (Hm1' : 0 <= m1) by nia.
  assert (Hm1lt : m1 < 2 ^ (prec - e1)).
  { replace (prec - e1) with (prec + - e1) by lia.
    rewrite Z.pow_add_r by (unfold prec; lia).
    assert (hi * 2 ^ (- e1) < 2 ^ prec * 2 ^ (- e1))
      by (apply Z.mul_lt_mono_pos_r; lia). lia. }
  set (n2 := fexp prec emax (Zdigits2 m1 + e1) - e1).
  destruct (shr_spec m1 e1 n2 loc_Exact Hm1') as (He2 & Hm2 & _).
  change (shr_record_of_loc m1 loc_Exact)
    with (Build_shr_record m1 false false) in *.
  destruct (shr (Build_shr_record m1 false false) e1 n2) as [mrs2 e2].
  cbn [fst snd] in *.
  set (k2 := Z.max 0 n2) in *.
  assert (Hk2 : 0 <= k2) by (unfold k2; lia).
  assert (He2' : e2 <= 0).
  { pose proof (fexp_nonpos m1 e1 Hm1' He1' Hm1lt). unfold k2, n2 in *. lia. }
  assert (Hpk2 : 0 < 2 ^ k2) by (apply Z.pow_pos_nonneg; lia).
  assert (Hp2 : 0 < 2 ^ (- e2)) by (apply Z.pow_pos_nonneg; lia).
  assert (Hsplit2 : 2 ^ (- e1) = 2 ^ (- e2) * 2 ^ k2).
  { rewrite <- Z.pow_add_r by lia. f_equal. lia. }
  assert (Hlo2 : lo * 2 ^ (- e2) <= shr_m mrs2).
  { rewrite Hm2. apply Z.div_le_lower_bound; [lia |].
    rewrite Hsplit2 in Hlo1. lia. }
  assert (Hhi2 : shr_m mrs2 <= hi * 2 ^ (- e2)).
  { rewrite Hm2. apply Z.div_le_upper_bound; [lia |].
    rewrite Hsplit2 in Hhi1. lia. }
  destruct (shr_m mrs2) as [|p|p] eqn:E2.
  - simpl. nia.
  - assert (Hle : (e2 <=? emax - prec) = true)
      by (apply Z.leb_le; unfold emax, prec; lia).
    rewrite Hle. simpl. lia.
  - exfalso. assert (0 <= m1 / 2 ^ k2) by (apply Z.div_pos; lia). lia.
Qed.

(** ** Aligning and normalising *)

Lemma iter_xO_pow (m d : positive) :
  Zpos (Pos.iter xO m d) = Zpos m * 2 ^ Zpos d.
Proof.
  rewrite (Pos.iter_swap_gen _ _ Zpos xO (Z.mul 2)) by reflexivity.
  change (Pos.iter (Z.mul 2) (Zpos m) d) with (Z.shiftl (Zpos m) (Zpos d)).
  apply Z.shiftl_mul_pow2. lia.
Qed.

Lemma shl_align_spec (mx : positive) (ex ex' : Z) :
  snd (shl_align mx ex ex') = Z.min ex ex' /\
  Zpos (fst (shl_align mx ex ex')) = Zpos mx * 2 ^ (ex - Z.min ex ex').
Proof.
  unfold shl_align. destruct (ex' - ex) as [|d|d] eqn:E; cbn [fst snd].
  - replace (Z.min ex ex') with ex by lia. rewrite Z.sub_diag.
    change (2 ^ 0) with 1. lia.
  - replace (Z.min ex ex') with ex by lia. rewrite Z.sub_diag.
    change (2 ^ 0) with 1. lia.
  - replace (Z.min ex ex') with ex' by lia. split; [reflexivity |].
    rewrite iter_xO_pow. f_equal. f_equal. lia.
Qed.

Lemma binary_round_within (mx : positive) (ex lo hi : Z) :
  ex <= 0 -> 0 <= lo -> hi < 2 ^ prec ->
  lo * 2 ^ (- ex) <= Zpos mx <= hi * 2 ^ (- ex) ->
  within lo hi (binary_round prec emax false mx ex).
Proof.
  intros He Hlo Hhi [Hl Hu]. unfold binary_round.
  destruct (shl_align_spec mx ex (fexp prec emax (Zpos (digits2_pos mx) + ex)))
    as [Hs Hm].
  destruct (shl_align mx ex (fexp prec emax (Zpos (digits2_pos mx) + ex)))
    as [mz ez].
  cbn [fst snd] in *.
  assert (Hez : ez <= ex) by lia.
  assert (Hsplit : 2 ^ (- ez) = 2 ^ (- ex) * 2 ^ (ex - ez)).
  { rewrite <- Z.pow_add_r by lia. f_equal. lia. }
  assert (Hp : 0 < 2 ^ (ex - ez)) by (apply Z.pow_pos_nonneg; lia).
  rewrite <- Hs in Hm.
  apply binary_round_aux_within; try lia.
  - rewrite Hsplit, Hm. nia.
  - assert (Zpos mz <= hi * 2 ^ (- ez)) by (rewrite Hsplit, Hm; nia).
    destruct (Z_lt_le_dec (Zpos mz) (hi * 2 ^ (- ez))); [now left | right].
    split; [lia | reflexivity].
Qed.

Lemma binary_normalize_within (m e lo hi : Z) :
  0 <= m -> e <= 0 -> 0 <= lo -> hi < 2 ^ prec ->
  lo * 2 ^ (- e) <= m <= hi * 2 ^ (- e) ->
  within lo hi (binary_normalize prec emax m e false).
Proof.
  intros Hm He Hlo Hhi Hb. destruct m as [|p|p]; simpl.
  - assert (0 < 2 ^ (- e)) by (apply Z.pow_pos_nonneg; lia). nia.
  - now apply binary_round_within.
  - lia.
Qed.

(** ** The four operations on a non-negative operand *)


Lemma aligned (c e ez : Z) :
  ez <= e -> e <= 0 -> c * 2 ^ (- ez) = c * 2 ^ (- e) * 2 ^ (e - ez).
Proof.
  intros H1 H2. rewrite <- Z.mul_assoc, <- Z.pow_add_r by lia.
  f_equal. f_equal. lia.
Qed.

Lemma aligned_le (a c e ez : Z) :
  ez <= e -> e <= 0 -> a <= c * 2 ^ (- e) ->
  a * 2 ^ (e - ez) <= c * 2 ^ (- ez).
Proof.
  intros H1 H2 H. rewrite (aligned c e ez H1 H2).
  apply Z.mul_le_mono_nonneg_r; [apply Z.pow_nonneg; lia | exact H].
Qed.

Lemma aligned_ge (a c e ez : Z) :
  ez <= e -> e <= 0 -> c * 2 ^ (- e) <= a ->
  c * 2 ^ (- ez) <= a * 2 ^ (e - ez).
Proof.
  intros H1 H2 H. rewrite (aligned c e ez H1 H2).
  apply Z.mul_le_mono_nonneg_r; [apply Z.pow_nonneg; lia | exact H].
Qed.

Lemma fadd_within (c lo hi : Z) (x u : float) :
  holds c x -> within lo hi u -> 0 <= lo -> lo <= hi -> c + hi < 2 ^ prec ->
  within (c + lo) (c + hi) (fadd x u).
Proof.
  intros (mx & ex & -> & Hex & Hmx) Hu Hlo Hlh Hhi.
  assert (Hq : 0 < 2 ^ (- ex)) by (apply Z.pow_pos_nonneg; lia).
  assert (Hc : 0 < c) by nia.
  destruct u as [s|s| |[|] m e]; simpl in Hu; try contradiction.
  - simpl. split; [exact Hex |]. nia.
  - destruct Hu as (He & Hl & Hh). unfold fadd, SFadd.
    set (ez := Z.min ex e).
    assert (Hz1 : ez <= ex) by (unfold ez; lia).
    assert (Hz2 : ez <= e) by (unfold ez; lia).
    destruct (shl_align_spec mx ex ez) as [_ Ha].
    destruct (shl_align_spec m e ez) as [_ Hb].
    replace (Z.min ex ez) with ez in Ha by lia.
    replace (Z.min e ez) with ez in Hb by lia.
    unfold cond_Zopp. rewrite Ha, Hb.
    pose proof (aligned_ge (Zpos mx) c ex ez Hz1 Hex ltac:(lia)).
    pose proof (aligned_le (Zpos mx) c ex ez Hz1 Hex ltac:(lia)).
    pose proof (aligned_ge (Zpos m) lo e ez Hz2 He Hl).
    pose proof (aligned_le (Zpos m) hi e ez Hz2 He Hh).
    assert (0 <= lo * 2 ^ (- ez))
      by (apply Z.mul_nonneg_nonneg; [lia | apply Z.pow_nonneg; lia]).
    assert (0 < c * 2 ^ (- ez))
      by (apply Z.mul_pos_pos; [lia | apply Z.pow_pos_nonneg; lia]).
    apply binary_normalize_within; lia.
Qed.

Lemma fsub_within (c lo hi : Z) (x u : float) :
  holds c x -> within lo hi u -> 0 <= lo -> lo <= hi -> hi <= c ->
  c < 2 ^ prec ->
  within (c - hi) (c - lo) (fsub x u).
Proof.
  intros (mx & ex & -> & Hex & Hmx) Hu Hlo Hlh Hhc Hc.
  assert (Hq : 0 < 2 ^ (- ex)) by (apply Z.pow_pos_nonneg; lia).
  destruct u as [s|s| |[|] m e]; simpl in Hu; try contradiction.
  - simpl. split; [exact Hex |]. nia.
  - destruct Hu as (He & Hl & Hh). unfold fsub, SFsub.
    set (ez := Z.min ex e).
    assert (Hz1 : ez <= ex) by (unfold ez; lia).
    assert (Hz2 : ez <= e) by (unfold ez; lia).
    destruct (shl_align_spec mx ex ez) as [_ Ha].
    destruct (shl_align_spec m e ez) as [_ Hb].
    replace (Z.min ex ez) with ez in Ha by lia.
    replace (Z.min e ez) with ez in Hb by lia.
    unfold cond_Zopp. rewrite Ha, Hb.
    pose proof (aligned_ge (Zpos mx) c ex ez Hz1 Hex ltac:(lia)).
    pose proof (aligned_le (Zpos mx) c ex ez Hz1 Hex ltac:(lia)).
    pose proof (aligned_ge (Zpos m) lo e ez Hz2 He Hl).
    pose proof (aligned_le (Zpos m) hi e ez Hz2 He Hh).
    assert (hi * 2 ^ (- ez) <= c * 2 ^ (- ez))
      by (apply Z.mul_le_mono_nonneg_r; [apply Z.pow_nonneg; lia | lia]).
    apply binary_normalize_within; lia.
Qed.


(** ** The rounded quotient of two integers *)

Lemma new_location_zero (b : Z) : new_location b 0 = loc_Exact.
Proof.
  unfold new_location, new_location_even, new_location_odd.
  destruct (Z.even b); reflexivity.
Qed.

Lemma div_round_within (a b lo hi : Z) :
  0 < b -> 0 <= lo -> hi < 2 ^ prec -> lo * b <= a <= hi * b ->
  within lo hi (div_round a b).
Proof.
  intros Hb Hlo Hhi [Hl Hu]. unfold div_round.
  assert (Ha : 0 <= a) by nia.
  assert (Hsb : (b <? 0) = false) by (apply Z.ltb_ge; lia).
  assert (Hsa : (a <? 0) = false) by (apply Z.ltb_ge; lia).
  rewrite Hsa, Hsb. simpl xorb.
  destruct a as [|p|p]; [simpl; nia | | lia].
  unfold SFdiv_core_binary.
  rewrite (Z.abs_eq (Zpos p)), (Z.abs_eq b) by lia.
  set (e' := Z.min (fexp prec emax (Zdigits2 (Zpos p) + 0 - (Zdigits2 b + 0)))
                   (0 - 0)).
  assert (He' : e' <= 0) by (unfold e'; lia).
  set (s := 0 - 0 - e').
  assert (Hm' : match s with
                | Zpos _ => Z.shiftl (Zpos p) s
                | 0 => Zpos p
                | Zneg _ => 0
                end = Zpos p * 2 ^ (- e')).
  { assert (Hs : s = - e') by (unfold s; lia). rewrite <- Hs.
    destruct s as [|q|q] eqn:Es.
    - simpl. lia.
    - apply Z.shiftl_mul_pow2. lia.
    - lia. }
  rewrite Hm'.
  assert (Hp : 0 < 2 ^ (- e')) by (apply Z.pow_pos_nonneg; lia).
  pose proof (Z_div_mod (Zpos p * 2 ^ (- e')) b ltac:(lia)) as Hdm.
  destruct (Z.div_eucl (Zpos p * 2 ^ (- e')) b) as [q r].
  destruct Hdm as [Heq Hr].
  apply binary_round_aux_within; try lia.
  - nia.
  - nia.
  - destruct (Z_lt_le_dec q (hi * 2 ^ (- e'))) as [Hlt | Hge]; [now left |].
    right. assert (q = hi * 2 ^ (- e') /\ r = 0) as [Hq ->] by nia.
    split; [exact Hq | apply new_location_zero].
Qed.

Local Close Scope Z_scope.

(** ** Constants of the chart as floats *)

Lemma lit_1_holds : holds 1 (lit 1).
Proof.
  eexists _, _. split; [vm_compute; reflexivity |].
  split; [discriminate | reflexivity].
Qed.

Lemma lit_padding_holds : holds padding (lit padding).
Proof.
  eexists _, _. split; [vm_compute; reflexivity |].
  split; [discriminate | reflexivity].
Qed.


Lemma float_limit_large : (780 < float_limit)%Z.
Proof. reflexivity. Qed.

(** ** From integer bounds to the exact value *)

Lemma within_Q (lo hi : Z) (r : float) :
  (0 <= lo)%Z -> (lo <= hi)%Z -> within lo hi r ->
  is_finite r = true /\ inject_Z lo <= float_Q r /\ float_Q r <= inject_Z hi.
Proof.
  intros Hlo Hhi H.
  destruct r as [s|s| |[|] m e]; simpl in H; try contradiction.
  - split; [reflexivity |]. unfold Qle. simpl. lia.
  - destruct H as (He & Hl & Hh). split; [reflexivity |].
    destruct e as [|p|p]; [| lia |].
    + change (- 0)%Z with 0%Z in Hl, Hh. change (2 ^ 0)%Z with 1%Z in Hl, Hh.
      unfold float_Q. change (2 ^ 0)%Z with 1%Z. unfold Qle. simpl. lia.
    + change (- Z.neg p)%Z with (Z.pos p) in Hl, Hh.
      unfold float_Q, Qle. simpl Qnum. simpl Qden.
      rewrite Pos2Z.inj_pow. lia.
Qed.

Lemma holds_within (c : Z) (x : float) : holds c x -> within c c x.
Proof. intros (m & e & -> & He & Hm). simpl. lia. Qed.

Lemma within_0_0 (r : float) : within 0 0 r -> exists s, r = S754_zero s.
Proof.
  destruct r as [s|s| |[|] m e]; simpl; try contradiction.
  - intros _. now exists s.
  - intros (_ & _ & H). lia.
Qed.


(** ** The float of an int that is not zero is not zero *)

Local Open Scope Z_scope.

Lemma shr_fexp_pos (m e : Z) (l : location) :
  0 < m -> emin prec emax <= e ->
  0 < shr_m (fst (shr_fexp prec emax m e l)) /\
  emin prec emax <= snd (shr_fexp prec emax m e l).
Proof.
  intros Hm He. unfold shr_fexp.
  destruct (shr_spec m e (fexp prec emax (Zdigits2 m + e) - e) l)
    as (Hs & Hv & _); [lia |].
  rewrite Hs, Hv. split; [| lia].
  destruct m as [|p|p]; try lia. simpl Zdigits2.
  destruct (digits2_pos_bounds p) as [Hlo _].
  set (d := Zpos (digits2_pos p)) in *.
  assert (Hd : 1 <= d) by (unfold d; lia).
  set (k := Z.max 0 (fexp prec emax (d + e) - e)).
  assert (Hk : 0 <= k <= d - 1).
  { unfold k, fexp, prec. unfold prec in He. lia. }
  assert (H2 : 2 ^ k <= 2 ^ (d - 1)) by (apply Z.pow_le_mono_r; lia).
  assert (Hp : 0 < 2 ^ k) by (apply Z.pow_pos_nonneg; lia).
  apply Z.lt_le_trans with 1; [lia |].
  apply Z.div_le_lower_bound; lia.
Qed.

Lemma binary_round_aux_nonzero (s : bool) (m e : Z) (l : location) :
  0 < m -> emin prec emax <= e ->
  is_zero (binary_round_aux prec emax s m e l) = false.
Proof.
  intros Hm He. unfold binary_round_aux.
  destruct (shr_fexp_pos m e l Hm He) as [H1 H1e].
  destruct (shr_fexp prec emax m e l) as [mrs' e']. cbn [fst snd] in H1, H1e.
  destruct (round_nearest_even_bounds (shr_m mrs') (loc_of_shr_record mrs'))
    as [[H2 _] _].
  destruct (shr_fexp_pos (round_nearest_even (shr_m mrs')
                            (loc_of_shr_record mrs')) e' loc_Exact)
    as [H3 _]; [lia | exact H1e |].
  destruct (shr_fexp prec emax _ e' loc_Exact) as [mrs'' e''].
  cbn [fst] in H3.
  destruct (shr_m mrs'') as [|p|p]; try lia.
  now destruct (e'' <=? emax - prec).
Qed.

Lemma float_of_Z_nonzero (z : Z) : z <> 0 -> is_zero (float_of_Z z) = false.
Proof.
  intros Hz. unfold float_of_Z, binary_normalize.
  assert (H : forall s p, is_zero (binary_round prec emax s p 0) = false).
  { intros s p. unfold binary_round.
    destruct (shl_align_spec p 0 (fexp prec emax (Zpos (digits2_pos p) + 0)))
      as [He Hm].
    destruct (shl_align p 0 _) as [mz ez]. cbn [fst snd] in He, Hm.
    apply binary_round_aux_nonzero; [lia |].
    rewrite He. unfold fexp, emin, prec, emax. lia. }
  destruct z as [|p|p]; [congruence | apply H | apply H].
Qed.

Local Close Scope Z_scope.

(** ** The loop of lines 23-27 *)

Lemma rmap_map_ret_In {A B C} (f : B -> result C) (h : A -> B) (g : A -> C)
    (l : list A) :
  (forall a, In a l -> f (h a) = Ret (g a)) ->
  rmap f (map h l) = Ret (map g l).
Proof.
  induction l as [|a l IH]; intros H; simpl; [reflexivity |].
  rewrite (H a) by now left. simpl.
  rewrite IH by (intros b Hb; apply H; now right). reflexivity.
Qed.

Lemma rmap_ret_ex {A B} (f : A -> result B) (l : list A) :
  (forall a, In a l -> exists b, f a = Ret b) -> exists bs, rmap f l = Ret bs.
Proof.
  induction l as [|a l IH]; intros H; simpl; [now eexists |].
  destruct (H a) as [b Hb]; [now left |]. rewrite Hb. simpl.
  destruct IH as [bs Hbs]; [intros a' Ha'; apply H; now right |].
  rewrite Hbs. simpl. now eexists.
Qed.

Lemma rmap_length {A B} (f : A -> result B) (l : list A) (bs : list B) :
  rmap f l = Ret bs -> length bs = length l.
Proof.
  intros H. apply rmap_ret_inv in H. symmetry. exact (Forall2_length _ _ _ H).
Qed.

Lemma enumerate_from_map {A B} (f : A -> B) (l : list A) (k : nat) :
  enumerate_from k (map f l) =
  map (fun ia => (ia.1, f ia.2)) (enumerate_from k l).
Proof.
  revert k. induction l as [|a l IH]; intros k; simpl; [reflexivity |].
  now rewrite IH.
Qed.

Lemma enumerate_from_In {A} (l : list A) (k i : nat) (a : A) :
  In (i, a) (enumerate_from k l) ->
  (k <= i < k + length l)%nat /\ In a l.
Proof.
  revert k. induction l as [|b l IH]; intros k; simpl; [tauto |].
  intros [[= <- <-] | H].
  - split; [lia | now left].
  - destruct (IH _ H) as [Hi Ha]. split; [lia | now right].
Qed.

Lemma enumerate_lookup {A} (l : list A) (i : nat) :
  enumerate l !! i = option_map (fun a => (i, a)) (l !! i).
Proof. unfold enumerate. now rewrite enumerate_from_lookup. Qed.

(** The division of line 25 does not raise. *)
Lemma int_truediv_ret (a b : Z) :
  (b <> 0)%Z -> (Z.abs a <= 780 * Z.abs b)%Z ->
  int_truediv a b = Ret (div_round a b).
Proof.
  intros Hb Ha. unfold int_truediv.
  destruct (Z.eqb_spec b 0) as [|_]; [contradiction |].
  destruct (Z.leb_spec (float_limit * Z.abs b) (Z.abs a)) as [H|_];
    [| reflexivity].
  pose proof float_limit_large. nia.
Qed.

Lemma coord_x_ret (n : nat) (mn vr : pynum) (i : nat) (v : pynum) :
  (i < n)%nat ->
  coord n mn vr i v =
  (d <- py_sub v mn ;; r <- py_truediv d vr ;; Ret (coord_x n i, coord_y r)).
Proof.
  intros Hi. unfold coord, coord_x.
  destruct (Nat.ltb_spec 1 n) as [Hn|_]; [| reflexivity].
  rewrite int_truediv_ret; [reflexivity | lia |].
  change usable_width with 780%Z. lia.
Qed.

Lemma coord_ret_inv (n : nat) (mn vr : pynum) (i : nat) (v : pynum)
    (c : float * float) :
  (i < n)%nat -> coord n mn vr i v = Ret c ->
  exists d r, py_sub v mn = Ret d /\ py_truediv d vr = Ret r /\
              c = (coord_x n i, coord_y r).
Proof.
  intros Hi. rewrite coord_x_ret by exact Hi.
  destruct (py_sub v mn) as [d|]; cbn [rbind]; [| discriminate].
  destruct (py_truediv d vr) as [r|] eqn:Er; cbn [rbind]; [| discriminate].
  intros [= <-]. exists d, r. repeat split; [exact Er].
Qed.

Lemma coords_ret_inv (values : list pynum) (cs : list (float * float)) :
  coords values = Ret cs ->
  exists mn mx d,
    py_min values = Ret mn /\ py_max values = Ret mx /\
    py_sub mx mn = Ret d /\
    length cs = length values /\
    (forall i v, values !! i = Some v ->
       exists c, cs !! i = Some c /\
                 coord (length values) mn (or_1 d) i v = Ret c) /\
    (forall i c, cs !! i = Some c ->
       exists v, values !! i = Some v /\
                 coord (length values) mn (or_1 d) i v = Ret c).
Proof.
  unfold coords.
  destruct (py_min values) as [mn|] eqn:Emn; simpl; [| discriminate].
  destruct (py_max values) as [mx|] eqn:Emx; simpl; [| discriminate].
  destruct (py_sub mx mn) as [d|] eqn:Ed; simpl; [| discriminate].
  intros H. exists mn, mx, d. split; [reflexivity |]. split; [reflexivity |].
  split; [exact Ed |].
  pose proof (rmap_length _ _ _ H) as Hlen.
  unfold enumerate in Hlen. rewrite enumerate_from_length in Hlen.
  apply rmap_ret_inv in H. split; [exact Hlen |]. split.
  - intros i v Hv.
    destruct (Forall2_lookup_l _ _ _ i (i, v) H) as (c & Hc & Hcv).
    { rewrite enumerate_lookup, Hv. reflexivity. }
    exists c. split; [exact Hc | exact Hcv].
  - intros i c Hc.
    destruct (Forall2_lookup_r _ _ _ i c H Hc) as ([j v] & Hv & Hcv).
    rewrite enumerate_lookup in Hv.
    destruct (values !! i) as [v'|]; [| discriminate].
    injection Hv as <- <-. exists v'. split; [reflexivity | exact Hcv].
Qed.

(** On a run that completes, the x of point i is [coord_x]. *)
Lemma coords_ret_x (values : list pynum) (cs : list (float * float)) (i : nat)
    (c : float * float) :
  coords values = Ret cs -> cs !! i = Some c -> c.1 = coord_x (length values) i.
Proof.
  intros H Hc.
  destruct (coords_ret_inv _ _ H) as (mn & mx & d & _ & _ & _ & Hlen & _ & Hr).
  destruct (Hr i c Hc) as (v & Hv & Hcv).
  apply lookup_lt_Some in Hv.
  destruct (coord_ret_inv _ _ _ _ _ _ Hv Hcv) as (d' & r & _ & _ & ->).
  reflexivity.
Qed.

(** *** Series of ints *)

Lemma fold_min_ints (zs : list Z) (z : Z) :
  fold_left (fun m x => if py_lt x m then x else m) (map PInt zs) (PInt z) =
  PInt (fold_left Z.min zs z).
Proof.
  revert z. induction zs as [|a zs IH]; intros z; simpl; [reflexivity |].
  destruct (Z.ltb_spec a z).
  - rewrite IH. now rewrite (Z.min_r z a) by lia.
  - rewrite IH. now rewrite (Z.min_l z a) by lia.
Qed.

Lemma fold_max_ints (zs : list Z) (z : Z) :
  fold_left (fun m x => if py_lt m x then x else m) (map PInt zs) (PInt z) =
  PInt (fold_left Z.max zs z).
Proof.
  revert z. induction zs as [|a zs IH]; intros z; simpl; [reflexivity |].
  destruct (Z.ltb_spec z a).
  - rewrite IH. now rewrite (Z.max_r z a) by lia.
  - rewrite IH. now rewrite (Z.max_l z a) by lia.
Qed.

Lemma fold_min_spec (zs : list Z) (z : Z) :
  In (fold_left Z.min zs z) (z :: zs) /\
  (forall a, In a (z :: zs) -> (fold_left Z.min zs z <= a)%Z).
Proof.
  revert z. induction zs as [|b zs IH]; intros z; simpl.
  - split; [now left |]. intros a [<- | []]. lia.
  - destruct (IH (Z.min z b)) as [Hin Hle]. split.
    + destruct Hin as [Hin | Hin]; [| now right; right].
      rewrite <- Hin. destruct (Z.min_spec z b) as [[_ ->] | [_ ->]]; auto.
    + intros a Ha. assert (H0 := Hle (Z.min z b) (or_introl eq_refl)).
      destruct Ha as [<- | [<- | Ha]]; [lia | lia |].
      apply Hle. now right.
Qed.

Lemma fold_max_spec (zs : list Z) (z : Z) :
  In (fold_left Z.max zs z) (z :: zs) /\
  (forall a, In a (z :: zs) -> (a <= fold_left Z.max zs z)%Z).
Proof.
  revert z. induction zs as [|b zs IH]; intros z; simpl.
  - split; [now left |]. intros a [<- | []]. lia.
  - destruct (IH (Z.max z b)) as [Hin Hle]. split.
    + destruct Hin as [Hin | Hin]; [| now right; right].
      rewrite <- Hin. destruct (Z.max_spec z b) as [[_ ->] | [_ ->]]; auto.
    + intros a Ha. assert (H0 := Hle (Z.max z b) (or_introl eq_refl)).
      destruct Ha as [<- | [<- | Ha]]; [lia | lia |].
      apply Hle. now right.
Qed.

Lemma zmin_spec (zs : list Z) :
  zs <> [] -> In (zmin zs) zs /\ (forall a, In a zs -> (zmin zs <= a)%Z).
Proof. destruct zs as [|z tl]; [easy |]. intros _. apply fold_min_spec. Qed.

Lemma zmax_spec (zs : list Z) :
  zs <> [] -> In (zmax zs) zs /\ (forall a, In a zs -> (a <= zmax zs)%Z).
Proof. destruct zs as [|z tl]; [easy |]. intros _. apply fold_max_spec. Qed.

Lemma int_range_pos (zs : list Z) : zs <> [] -> (0 < int_range zs)%Z.
Proof.
  intros Hne. destruct (zmin_spec zs Hne) as [Hin _].
  destruct (zmax_spec zs Hne) as [_ Hle]. specialize (Hle _ Hin).
  unfold int_range. destruct (Z.eqb_spec (zmax zs - zmin zs) 0); lia.
Qed.

Lemma int_range_covers (zs : list Z) (z : Z) :
  In z zs -> (0 <= z - zmin zs <= int_range zs)%Z.
Proof.
  intros Hz. assert (Hne : zs <> []) by (intros ->; destruct Hz).
  destruct (zmin_spec zs Hne) as [_ Hmin].
  destruct (zmax_spec zs Hne) as [_ Hmax].
  specialize (Hmin _ Hz). specialize (Hmax _ Hz).
  unfold int_range. destruct (Z.eqb_spec (zmax zs - zmin zs) 0); lia.
Qed.

(** The range of a series that holds two different ints is the difference
    of its extremes. *)
Lemma int_range_spread (zs : list Z) :
  (exists a b, In a zs /\ In b zs /\ a <> b) ->
  int_range zs = (zmax zs - zmin zs)%Z.
Proof.
  intros (a & b & Ha & Hb & Hab).
  assert (Hne : zs <> []) by (intros ->; destruct Ha).
  destruct (zmin_spec zs Hne) as [_ Hmin].
  destruct (zmax_spec zs Hne) as [_ Hmax].
  pose proof (Hmin _ Ha). pose proof (Hmin _ Hb).
  pose proof (Hmax _ Ha). pose proof (Hmax _ Hb).
  unfold int_range. destruct (Z.eqb_spec (zmax zs - zmin zs) 0); lia.
Qed.

Lemma py_min_ints (zs : list Z) :
  zs <> [] -> py_min (map PInt zs) = Ret (PInt (zmin zs)).
Proof.
  destruct zs as [|z tl]; [easy |]. intros _. simpl. now rewrite fold_min_ints.
Qed.

Lemma py_max_ints (zs : list Z) :
  zs <> [] -> py_max (map PInt zs) = Ret (PInt (zmax zs)).
Proof.
  destruct zs as [|z tl]; [easy |]. intros _. simpl. now rewrite fold_max_ints.
Qed.

Lemma or_1_int (d : Z) :
  or_1 (PInt d) = PInt (if (d =? 0)%Z then 1%Z else d).
Proof. unfold or_1, py_bool. now destruct (d =? 0)%Z. Qed.

(** Lines 19-27 on a series of ints never raise, whatever the size of the
    ints: no int is converted to a float, and each division is of a smaller
    int by a larger one. *)
Lemma coords_ints (zs : list Z) :
  zs <> [] ->
  coords (map PInt zs) =
  Ret (map (fun iz => (coord_x (length zs) iz.1,
                       coord_y (div_round (iz.2 - zmin zs) (int_range zs))))
           (enumerate zs)).
Proof.
  intros Hne. unfold coords.
  rewrite py_min_ints, py_max_ints by exact Hne. simpl.
  rewrite or_1_int. fold (int_range zs). rewrite length_map.
  unfold enumerate. rewrite enumerate_from_map.
  apply rmap_map_ret_In. intros [i z] Hin. simpl.
  apply enumerate_from_In in Hin. destruct Hin as [Hi Hz].
  rewrite coord_x_ret by lia. simpl.
  pose proof (int_range_pos zs Hne). pose proof (int_range_covers zs z Hz).
  rewrite int_truediv_ret by lia. reflexivity.
Qed.

Lemma coords_ints_lookup (zs : list Z) (cs : list (float * float)) (i : nat)
    (z : Z) :
  coords (map PInt zs) = Ret cs -> zs !! i = Some z ->
  cs !! i = Some (coord_x (length zs) i,
                  coord_y (div_round (z - zmin zs) (int_range zs))).
Proof.
  intros H Hz. assert (Hne : zs <> []) by (intros ->; discriminate).
  rewrite coords_ints in H by exact Hne. injection H as <-.
  change (map ?f ?l) with (f <$> l).
  rewrite list_lookup_fmap, enumerate_lookup, Hz. reflexivity.
Qed.

Lemma all_ints (values : list pynum) :
  Forall (fun v => is_int v = true) values -> exists zs, values = map PInt zs.
Proof.
  induction 1 as [|v values Hv _ [zs ->]]; [now exists [] |].
  destruct v as [z|f]; [| discriminate]. now exists (z :: zs).
Qed.

(** *** Series of floats *)

Lemma fold_choice {A} (P : A -> Prop) (step : A -> A -> A) (l : list A)
    (a : A) :
  (forall m x, step m x = m \/ step m x = x) ->
  P a -> Forall P l -> P (fold_left step l a).
Proof.
  intros Hs Ha Hl. revert a Ha.
  induction Hl as [|x l Hx _ IH]; intros a Ha; simpl; [exact Ha |].
  apply IH. destruct (Hs a x) as [-> | ->]; assumption.
Qed.

Lemma py_min_floats (values : list pynum) :
  values <> [] -> Forall (fun v => is_float v = true) values ->
  exists f, py_min values = Ret (PFloat f).
Proof.
  destruct values as [|v tl]; [easy |]. intros _ H.
  apply Forall_cons in H. destruct H as [Hv Htl]. simpl.
  pose proof (fold_choice (fun v => is_float v = true)
                (fun m x => if py_lt x m then x else m) tl v) as Hf.
  destruct (fold_left _ tl v) as [z|f].
  - discriminate Hf; try assumption.
    intros m x. destruct (py_lt x m); auto.
  - now exists f.
Qed.

Lemma py_max_floats (values : list pynum) :
  values <> [] -> Forall (fun v => is_float v = true) values ->
  exists f, py_max values = Ret (PFloat f).
Proof.
  destruct values as [|v tl]; [easy |]. intros _ H.
  apply Forall_cons in H. destruct H as [Hv Htl]. simpl.
  pose proof (fold_choice (fun v => is_float v = true)
                (fun m x => if py_lt m x then x else m) tl v) as Hf.
  destruct (fold_left _ tl v) as [z|f].
  - discriminate Hf; try assumption.
    intros m x. destruct (py_lt m x); auto.
  - now exists f.
Qed.

(** Dividing a float by the range never raises: the range is a float that
    is not zero, or the int 1. *)
Lemma py_truediv_float_range (a d : float) :
  exists r, py_truediv (PFloat a) (or_1 (PFloat d)) = Ret r.
Proof.
  unfold or_1, py_bool. destruct (is_zero d) eqn:Hd; simpl.
  - eexists. reflexivity.
  - rewrite Hd. eexists. reflexivity.
Qed.

(** Lines 19-27 on a series of floats never raise, infinities and NaN
    included. *)
Lemma coords_floats (values : list pynum) :
  values <> [] -> Forall (fun v => is_float v = true) values ->
  exists cs, coords values = Ret cs.
Proof.
  intros Hne Hall. unfold coords.
  destruct (py_min_floats values Hne Hall) as [a ->].
  destruct (py_max_floats values Hne Hall) as [b ->].
  cbn [rbind py_sub to_float].
  apply rmap_ret_ex. intros [i v] Hin.
  apply enumerate_from_In in Hin. destruct Hin as [Hi Hv].
  rewrite Forall_forall in Hall.
  apply list_elem_of_In in Hv. specialize (Hall _ Hv).
  destruct v as [z|f]; [discriminate |]. simpl fst. simpl snd.
  rewrite coord_x_ret by lia. cbn [rbind py_sub to_float].
  destruct (py_truediv_float_range (fsub f a) (fsub b a)) as [r ->].
  cbn [rbind]. now eexists.
Qed.

Lemma coords_one_kind (values : list pynum) :
  values <> [] -> one_kind values -> exists cs, coords values = Ret cs.
Proof.
  intros Hne [Hi | Hf].
  - destruct (all_ints values Hi) as [zs ->].
    rewrite coords_ints; [now eexists |]. now destruct zs.
  - now apply coords_floats.
Qed.

(** *** The conversions of line 48 *)

Lemma to_float_fits (v : pynum) :
  (exists f, to_float v = Ret f) <-> fits v = true.
Proof.
  destruct v as [z|f]; simpl; [| split; [reflexivity | now eexists]].
  unfold int_to_float. rewrite Z.ltb_antisym.
  destruct (float_limit <=? Z.abs z)%Z; simpl; split; try discriminate.
  - now intros [f [=]].
  - reflexivity.
  - now eexists.
Qed.

Lemma to_float_raises (v : pynum) (e : exn) :
  to_float v = Raise e -> e = OverflowError.
Proof.
  destruct v as [z|f]; simpl; [| discriminate].
  unfold int_to_float. destruct (float_limit <=? Z.abs z)%Z; congruence.
Qed.

Lemma shown_ret (values : list pynum) :
  Forall (fun v => fits v = true) values ->
  exists shown, rmap to_float values = Ret shown.
Proof.
  intros H. apply rmap_ret_ex. intros v Hv. apply to_float_fits.
  rewrite Forall_forall in H. apply H. now apply list_elem_of_In.
Qed.

Lemma shown_fits (values : list pynum) (shown : list float) :
  rmap to_float values = Ret shown ->
  Forall (fun v => fits v = true) values.
Proof.
  intros H. apply Forall_forall. intros v Hv. apply list_elem_of_In in Hv.
  destruct (rmap_ret_all _ _ _ _ H Hv) as (f & _ & Hf).
  apply to_float_fits. now exists f.
Qed.

(** ** Where the points lie *)


(** A quotient of exactly 1 puts the point on the upper edge. *)
Lemma coord_y_at_one (r : float) : within 1 1 r -> coord_y r = lit padding.
Proof.
  intros Hr. unfold coord_y.
  assert (H1 : within (1 - 1) (1 - 1) (fsub (lit 1) r)).
  { apply fsub_within; [exact lit_1_holds | exact Hr | lia | lia | lia |].
    reflexivity. }
  destruct (within_0_0 _ H1) as [s ->]. now destruct s.
Qed.

(** A quotient of zero puts the point on the lower edge. *)
Lemma coord_y_at_zero (s : bool) :
  coord_y (S754_zero s) = lit (height - padding).
Proof. now destruct s. Qed.


Lemma div_round_self (b : Z) : (0 < b)%Z -> within 1 1 (div_round b b).
Proof. intros Hb. apply div_round_within; [exact Hb | lia | reflexivity | lia]. Qed.

Lemma div_round_zero (b : Z) : (0 < b)%Z -> div_round 0 b = S754_zero false.
Proof.
  intros Hb. unfold div_round.
  now replace (b <? 0)%Z with false by (symmetry; apply Z.ltb_ge; lia).
Qed.


(** The first point of several is at the left edge, the last at the right
    edge. *)
Lemma coord_x_first (n : nat) : (1 < n)%nat -> coord_x n 0 = lit padding.
Proof.
  intros Hn. unfold coord_x.
  destruct (Nat.ltb_spec 1 n) as [_|]; [| lia].
  change (usable_width * Z.of_nat 0)%Z with 0%Z.
  rewrite div_round_zero by lia. reflexivity.
Qed.

Lemma coord_x_last (n : nat) :
  (1 < n)%nat ->
  within (width - padding) (width - padding) (coord_x n (n - 1)).
Proof.
  intros Hn. unfold coord_x.
  destruct (Nat.ltb_spec 1 n) as [_|]; [| lia].
  assert (H : within (padding + usable_width) (padding + usable_width)
                (fadd (lit padding)
                   (div_round (usable_width * Z.of_nat (n - 1))
                              (Z.of_nat n - 1)))).
  { apply fadd_within; [exact lit_padding_holds | | | lia | reflexivity].
    - apply div_round_within; [lia | | reflexivity |];
        unfold usable_width, width, padding; lia.
    - unfold usable_width, width, padding; lia. }
  exact H.
Qed.

(** The exact x as one fraction. *)
Lemma x_exact_frac (n i : nat) :
  (1 < n)%nat ->
  x_exact n i ==
  (padding * (Z.of_nat n - 1) + usable_width * Z.of_nat i)
    # Z.to_pos (Z.of_nat n - 1).
Proof.
  intros Hn. unfold x_exact.
  rewrite (Qmake_Qdiv (padding * (Z.of_nat n - 1) + usable_width * Z.of_nat i)
                      (Z.to_pos (Z.of_nat n - 1))).
  rewrite Z2Pos.id by lia.
  rewrite inject_Z_plus, !inject_Z_mult.
  assert (Hb : inject_Z (Z.of_nat n) - 1 == inject_Z (Z.of_nat n - 1)).
  { unfold Z.sub. rewrite inject_Z_plus, inject_Z_opp. reflexivity. }
  rewrite Hb.
  assert (H0 : ~ inject_Z (Z.of_nat n - 1) == 0).
  { unfold Qeq. simpl. lia. }
  field. exact H0.
Qed.

(** The x of point i is the exact x whenever that is a whole number, and
    lies between the two whole numbers around it otherwise. *)
Lemma coord_x_between (n i : nat) :
  (1 < n)%nat -> (i < n)%nat ->
  is_finite (coord_x n i) = true /\
  inject_Z (Qfloor (x_exact n i)) <= float_Q (coord_x n i) /\
  float_Q (coord_x n i) <= inject_Z (Qceiling (x_exact n i)).
Proof.
  intros Hn Hi.
  set (b := (Z.of_nat n - 1)%Z). set (a := (usable_width * Z.of_nat i)%Z).
  assert (Hb : (0 < b)%Z) by (unfold b; lia).
  assert (Ha : (0 <= a <= usable_width * b)%Z).
  { unfold a, b, usable_width, width, padding. lia. }
  pose proof (x_exact_frac n i Hn) as Hx. fold a b in Hx.
  assert (Hup : x_exact n i <= (padding * b + a) # Z.to_pos b)
    by (apply Qle_lteq; right; exact Hx).
  assert (Hdn : (padding * b + a) # Z.to_pos b <= x_exact n i)
    by (apply Qle_lteq; right; symmetry; exact Hx).
  pose proof (Qle_trans _ _ _ (Qfloor_le (x_exact n i)) Hup) as Hfl.
  pose proof (Qle_trans _ _ _ Hdn (Qle_ceiling (x_exact n i))) as Hce.
  assert (Hlo : (padding <= Qfloor (x_exact n i))%Z).
  { rewrite <- (Qfloor_Z padding). apply Qfloor_resp_le.
    apply Qle_trans with (2 := Hdn).
    unfold Qle. cbn [Qnum Qden inject_Z]. rewrite Z2Pos.id by lia. lia. }
  assert (Hhi : (Qceiling (x_exact n i) <= width - padding)%Z).
  { rewrite <- (Qceiling_Z (width - padding)). apply Qceiling_resp_le.
    apply Qle_trans with (1 := Hup).
    unfold Qle. cbn [Qnum Qden inject_Z]. rewrite Z2Pos.id by lia.
    unfold usable_width in Ha. lia. }
  pose proof (Qle_floor_ceiling (x_exact n i)) as Hfc.
  revert Hfl Hce Hlo Hhi Hfc.
  generalize (Qfloor (x_exact n i)) (Qceiling (x_exact n i)).
  intros F C Hfl Hce Hlo Hhi Hfc.
  unfold Qle in Hfl, Hce, Hfc. cbn [Qnum Qden inject_Z] in Hfl, Hce, Hfc.
  rewrite Z2Pos.id in Hfl, Hce by lia.
  assert (Hp : padding = 60%Z) by reflexivity.
  unfold width in Hhi.
  apply within_Q; [lia | lia |].
  unfold coord_x. destruct (Nat.ltb_spec 1 n) as [_|]; [| lia].
  fold a b.
  replace F with (padding + (F - padding))%Z by lia.
  replace C with (padding + (C - padding))%Z by lia.
  apply fadd_within; [exact lit_padding_holds | | lia | lia |].
  - apply div_round_within; [exact Hb | lia | | nia].
    apply Z.le_lt_trans with 780%Z; [lia | reflexivity].
  - apply Z.le_lt_trans with 840%Z; [lia | reflexivity].
Qed.

(** ** Series whose values are all equal *)

Lemma fold_keep {A} (step : A -> A -> A) (l : list A) (a : A) :
  Forall (fun x => step a x = a) l -> fold_left step l a = a.
Proof.
  induction 1 as [|x l Hx _ IH]; simpl; [reflexivity |]. now rewrite Hx.
Qed.

Lemma SFeqb_not_lt (g f : float) : SFeqb g f = true -> SFltb g f = false.
Proof. unfold SFeqb, SFltb. now destruct (SFcompare g f) as [[| |]|]. Qed.

(** The difference of two finite floats that compare equal is a zero. *)
Lemma SFeqb_fsub (g f : float) :
  is_finite g = true -> is_finite f = true -> SFeqb g f = true ->
  exists s, fsub g f = S754_zero s.
Proof.
  destruct g as [sg|sg| |sg mg eg], f as [sf|sf| |sf mf ef];
    try discriminate; intros _ _.
  - intros _. destruct sg, sf; eexists; reflexivity.
  - unfold SFeqb. simpl. now destruct sf.
  - unfold SFeqb. simpl. now destruct sg.
  - unfold SFeqb, SFcompare.
    assert (Hsame : sg = sf -> (eg ?= ef)%Z = Eq ->
                    Pos.compare_cont Eq mg mf = Eq ->
                    exists s, fsub (S754_finite sg mg eg)
                                   (S754_finite sf mf ef) = S754_zero s).
    { intros -> He Hm. apply Z.compare_eq in He. apply Pos.compare_eq in Hm.
      subst. exists false. unfold fsub, SFsub. rewrite Z.sub_diag.
      reflexivity. }
    destruct sg, sf; try discriminate;
      destruct (eg ?= ef)%Z eqn:He; try discriminate;
      destruct (Pos.compare_cont Eq mg mf) eqn:Hm; try discriminate;
      intros _; now apply Hsame.
Qed.

Lemma fdiv_zero_one (s : bool) :
  py_truediv (PFloat (S754_zero s)) (PInt 1) = Ret (S754_zero s).
Proof. now destruct s. Qed.

Lemma or_1_zero (s : bool) : or_1 (PFloat (S754_zero s)) = PInt 1.
Proof. reflexivity. Qed.

Lemma coords_flat_floats (f0 : float) (fs : list float) :
  is_finite f0 = true ->
  Forall (fun g => is_finite g = true /\ SFeqb g f0 = true /\
                   SFeqb f0 g = true) fs ->
  coords (map PFloat (f0 :: fs)) =
  Ret (map (fun iv => (coord_x (S (length fs)) iv.1, lit (height - padding)))
           (enumerate (f0 :: fs))).
Proof.
  intros H0 Hall.
  assert (Hself : SFeqb f0 f0 = true).
  { destruct f0 as [s|s| |s m e]; try discriminate; [reflexivity |].
    unfold SFeqb, SFcompare. rewrite Z.compare_refl.
    change (Pos.compare_cont Eq m m) with (Pos.compare m m).
    rewrite Pos.compare_refl. now destruct s. }
  assert (Hall' : Forall (fun g => is_finite g = true /\ SFeqb g f0 = true /\
                                   SFeqb f0 g = true) (f0 :: fs))
    by (constructor; [now repeat split | exact Hall]).
  unfold coords.
  assert (Emn : py_min (map PFloat (f0 :: fs)) = Ret (PFloat f0)).
  { simpl. f_equal. apply fold_keep. apply Forall_map.
    eapply Forall_impl; [exact Hall |]. intros g (_ & Hg & _). simpl.
    now rewrite (SFeqb_not_lt _ _ Hg). }
  assert (Emx : py_max (map PFloat (f0 :: fs)) = Ret (PFloat f0)).
  { simpl. f_equal. apply fold_keep. apply Forall_map.
    eapply Forall_impl; [exact Hall |]. intros g (_ & _ & Hg). simpl.
    now rewrite (SFeqb_not_lt _ _ Hg). }
  rewrite Emn, Emx. cbn [rbind py_sub to_float].
  destruct (SFeqb_fsub f0 f0 H0 H0 Hself) as [s0 ->]. rewrite or_1_zero.
  rewrite length_map. unfold enumerate. rewrite enumerate_from_map.
  apply rmap_map_ret_In. intros [i g] Hin. cbn [fst snd].
  apply enumerate_from_In in Hin. destruct Hin as [Hi Hg].
  rewrite Forall_forall in Hall'. apply list_elem_of_In in Hg.
  destruct (Hall' _ Hg) as (Hfin & Heq & _).
  rewrite coord_x_ret by (simpl in *; lia). cbn [rbind py_sub to_float].
  destruct (SFeqb_fsub g f0 Hfin H0 Heq) as [s ->].
  rewrite fdiv_zero_one. cbn [rbind]. now rewrite coord_y_at_zero.
Qed.

Lemma coords_flat_ints (z : Z) (zs : list Z) :
  Forall (fun a => a = z) zs ->
  coords (map PInt (z :: zs)) =
  Ret (map (fun iv => (coord_x (S (length zs)) iv.1, lit (height - padding)))
           (enumerate (z :: zs))).
Proof.
  intros Hall. rewrite coords_ints by discriminate. f_equal.
  assert (Hne : z :: zs <> []) by discriminate.
  destruct (zmin_spec _ Hne) as [Hmin _].
  assert (Hall' : forall a, In a (z :: zs) -> a = z).
  { intros a [<- | Ha]; [reflexivity |]. rewrite Forall_forall in Hall.
    apply Hall. now apply list_elem_of_In. }
  apply Hall' in Hmin.
  apply map_ext_in. intros [i a] Hin. cbn [fst snd length].
  apply (in_map snd) in Hin. unfold enumerate in Hin.
  assert (Ha : In a (z :: zs)).
  { clear -Hin. revert Hin. generalize 0%nat. generalize (z :: zs).
    induction l as [|b l IH]; intros k; simpl; [tauto |].
    intros [<- | H]; [now left | right; eauto]. }
  apply Hall' in Ha. rewrite Ha, Hmin, Z.sub_diag.
  rewrite div_round_zero by (rewrite <- Hmin; now apply int_range_pos).
  now rewrite coord_y_at_zero.
Qed.

(** ** Rendering a series *)

Lemma getitem_total_value (lv : string * pynum) :
  getitem "totalValue" (point lv) = Ret (JNum lv.2).
Proof.
  unfold getitem, point.
  rewrite lookup_insert_ne by discriminate. now rewrite lookup_insert_eq.
Qed.

Lemma getitem_label (lv : string * pynum) :
  getitem "label" (point lv) = Ret (JStr lv.1).
Proof. unfold getitem, point. now rewrite lookup_insert_eq. Qed.

Lemma render_array (py_str : json -> string) (ps : list json) :
  render py_str (payload_of ps) =
  (values <- rmap (getitem "totalValue") ps ;;
   labels <- rmap (getitem "label") ps ;;
   nums <- rmap number values ;;
   cs <- coords nums ;;
   shown <- rmap to_float nums ;;
   Ret (String.concat nl (svg_lines cs (map py_str labels) shown))).
Proof.
  unfold render, payload_of, getitem at 1. now rewrite lookup_insert_eq.
Qed.

Lemma render_series (py_str : json -> string)
    (series : list (string * pynum)) :
  render py_str (series_payload series) =
  (cs <- coords (map snd series) ;;
   shown <- rmap to_float (map snd series) ;;
   Ret (String.concat nl
          (svg_lines cs (map (fun lv => py_str (JStr lv.1)) series) shown))).
Proof.
  unfold series_payload. rewrite render_array.
  rewrite (rmap_map_ret _ _ (fun lv => JNum lv.2)) by apply getitem_total_value.
  cbn [rbind].
  rewrite (rmap_map_ret _ _ (fun lv => JStr lv.1)) by apply getitem_label.
  cbn [rbind]. rewrite !map_map.
  rewrite (rmap_map_ret number _ snd) by reflexivity.
  reflexivity.
Qed.

(** What a rendering that returns has computed. *)
Lemma render_series_ret (py_str : json -> string)
    (series : list (string * pynum)) (text : string) :
  render py_str (series_payload series) = Ret text ->
  exists cs shown,
    coords (map snd series) = Ret cs /\
    rmap to_float (map snd series) = Ret shown /\
    length cs = length series /\ length shown = length series /\
    text = String.concat nl
             (svg_lines cs (map (fun lv => py_str (JStr lv.1)) series) shown).
Proof.
  rewrite render_series.
  destruct (coords (map snd series)) as [cs|] eqn:Ecs; cbn [rbind];
    [| discriminate].
  destruct (rmap to_float (map snd series)) as [shown|] eqn:Esh; cbn [rbind];
    [| discriminate].
  intros [= <-]. exists cs, shown.
  split; [reflexivity |]. split; [reflexivity |].
  destruct (coords_ret_inv _ _ Ecs) as (_ & _ & _ & _ & _ & _ & Hlen & _).
  apply rmap_length in Esh. rewrite length_map in Hlen, Esh.
  repeat split; assumption.
Qed.

(** A series of one kind whose ints have a float is rendered. *)
Lemma render_series_one_kind (py_str : json -> string)
    (series : list (string * pynum)) :
  series <> [] -> one_kind (map snd series) ->
  Forall (fun v => fits v = true) (map snd series) ->
  exists text, render py_str (series_payload series) = Ret text.
Proof.
  intros Hne Hk Hf. rewrite render_series.
  destruct (coords_one_kind (map snd series)) as [cs ->];
    [now destruct series | exact Hk |].
  destruct (shown_ret _ Hf) as [shown ->]. cbn [rbind]. now eexists.
Qed.

Lemma render_empty (py_str : json -> string) (payload : json) :
  getitem "points" payload = Ret (JArr []) ->
  render py_str payload = Raise ValueError.
Proof. intros H. unfold render. rewrite H. reflexivity. Qed.


Lemma getitem_raises (key : string) (obj : json) (e : exn) :
  getitem key obj = Raise e -> e = KeyError \/ e = TypeError.
Proof.
  destruct obj as [| | | | |m]; simpl; try (intros [= <-]; now right).
  destruct (m !! key); [discriminate | intros [= <-]; now left].
Qed.

Lemma number_raises (v : json) (e : exn) :
  number v = Raise e -> e = TypeError.
Proof. destruct v; simpl; congruence. Qed.

Lemma getitem_object_raises (key : string) (ms : list (gmap string json))
    (a : json) (e : exn) :
  In a (map JObj ms) -> getitem key a = Raise e -> e = KeyError.
Proof.
  intros Ha. apply in_map_iff in Ha. destruct Ha as (m & <- & _). simpl.
  destruct (m !! key); congruence.
Qed.

Lemma rmap_getitem_insert (key k : string) (v : json)
    (ms : list (gmap string json)) :
  k <> key ->
  rmap (getitem key) (map JObj (map (insert k v) ms)) =
  rmap (getitem key) (map JObj ms).
Proof.
  intros Hk. induction ms as [|m ms IH]; simpl; [reflexivity |].
  rewrite lookup_insert_ne by exact Hk. now rewrite IH.
Qed.

(** ** The emitted markup *)

Lemma circles_of_points (cs : list (float * float)) (labels : list string)
    (values : list float) :
  length labels = length cs -> length values = length cs ->
  List.filter is_circle (flat_map point_lines (zip cs (zip labels values))) =
  map circle_line cs.
Proof.
  revert labels values.
  induction cs as [|c cs IH]; intros [|l labels] [|v values]; simpl;
    try discriminate; [reflexivity |].
  intros [= Hl] [= Hv]. now rewrite IH.
Qed.

Lemma grids_of_points (items : list ((float * float) * (string * float))) :
  List.filter is_grid (flat_map point_lines items) = [].
Proof.
  induction items as [|[c [l v]] items IH]; simpl; [reflexivity | exact IH].
Qed.

Lemma circles_of_svg_lines (cs : list (float * float)) (labels : list string)
    (values : list float) :
  length labels = length cs -> length values = length cs ->
  List.filter is_circle (svg_lines cs labels values) = map circle_line cs.
Proof.
  intros Hl Hv. unfold svg_lines.
  rewrite !List.filter_app, circles_of_points by assumption.
  change (List.filter is_circle svg_open) with (@nil string).
  change (List.filter is_circle (map grid_line (seq 0 5))) with (@nil string).
  simpl. apply app_nil_r.
Qed.

Lemma grids_of_svg_lines (cs : list (float * float)) (labels : list string)
    (values : list float) :
  List.filter is_grid (svg_lines cs labels values) = map grid_line (seq 0 5).
Proof.
  unfold svg_lines. rewrite !List.filter_app, grids_of_points.
  change (List.filter is_grid svg_open) with (@nil string).
  change (List.filter is_grid (map grid_line (seq 0 5)))
    with (map grid_line (seq 0 5)).
  simpl. reflexivity.
Qed.

Lemma grid_lines_text :
  map grid_line (seq 0 5) =
  [ "    <line x1='60' y1='60.00' x2='840' y2='60.00' stroke-opacity='0.4' />";
    "    <line x1='60' y1='135.00' x2='840' y2='135.00' stroke-opacity='0.4' />";
    "    <line x1='60' y1='210.00' x2='840' y2='210.00' stroke-opacity='0.4' />";
    "    <line x1='60' y1='285.00' x2='840' y2='285.00' stroke-opacity='0.4' />";
    "    <line x1='60' y1='360.00' x2='840' y2='360.00' stroke-opacity='0.4' />" ].
Proof. vm_compute. reflexivity. Qed.

(** The five gridlines are at whole numbers of pixels, computed exactly. *)
Lemma grid_y_exact (i : nat) :
  (i < 5)%nat ->
  is_finite (grid_y i) = true /\
  float_Q (grid_y i) ==
  inject_Z padding + inject_Z usable_height * inject_Z (Z.of_nat i) / 4.
Proof.
  intros Hi. destruct i as [|[|[|[|[|i]]]]]; [| | | | | lia];
    (split; [reflexivity | vm_compute; reflexivity]).
Qed.

Lemma point_lines_length (cs : list (float * float)) (labels : list string)
    (values : list float) :
  length labels = length cs -> length values = length cs ->
  length (flat_map point_lines (zip cs (zip labels values))) =
  (3 * length cs)%nat.
Proof.
  revert labels values.
  induction cs as [|c cs IH]; intros [|l labels] [|v values]; simpl;
    try discriminate; [reflexivity |].
  intros [= Hl] [= Hv]. rewrite (IH labels values Hl Hv). lia.
Qed.

Lemma last_two {A} (l : list A) (x y : A) : last (l ++ [x; y]) = Some y.
Proof.
  change [x; y] with ([x] ++ [y]). rewrite app_assoc. apply last_snoc.
Qed.

Lemma point_lines_lookup (items : list ((float * float) * (string * float)))
    (i : nat) (item : (float * float) * (string * float)) (k : nat) :
  items !! i = Some item -> (k < 3)%nat ->
  flat_map point_lines items !! (3 * i + k)%nat = point_lines item !! k.
Proof.
  revert i. induction items as [|it items IH]; intros i; [discriminate |].
  destruct i as [|i]; simpl.
  - intros [= ->] Hk. destruct item as [c [l v]].
    destruct k as [|[|[|k]]]; try reflexivity. lia.
  - intros Hi Hk. destruct it as [c [l v]]. simpl.
    replace (i + S (i + S (i + 0)) + k)%nat with (S (S (3 * i + k))) by lia.
    simpl. now apply IH.
Qed.

Lemma zip3_lookup (cs : list (float * float)) (labels : list string)
    (values : list float) (i : nat) (c : float * float) (l : string)
    (v : float) :
  cs !! i = Some c -> labels !! i = Some l -> values !! i = Some v ->
  zip cs (zip labels values) !! i = Some (c, (l, v)).
Proof.
  revert labels values i.
  induction cs as [|c0 cs IH]; intros [|l0 labels] [|v0 values] [|i];
    simpl; try discriminate.
  - now intros [= ->] [= ->] [= ->].
  - apply IH.
Qed.

(** The path is the tenth entry of the document. *)
Lemma path_is_entry_9 (cs : list (float * float)) (labels : list string)
    (values : list float) :
  svg_lines cs labels values !! 9%nat = Some (path_line cs).
Proof. reflexivity. Qed.

Lemma prefix_append (p s : string) : String.prefix p (p +:+ s) = true.
Proof.
  induction p as [|a p IH]; simpl; [now destruct s |].
  now destruct (ascii_dec a a).
Qed.

(** The path starts at the first point. *)
Lemma path_line_first (c : float * float) (cs : list (float * float)) :
  c.1 = lit padding ->
  String.prefix "  <path d='M 60.00 " (path_line (c :: cs)) = true.
Proof.
  intros Hc. unfold path_line, path_d.
  cbn [map]. rewrite Hc.
  assert (E : fmt_2f (lit padding) = "60.00") by (vm_compute; reflexivity).
  rewrite E.
  destruct cs as [|c' cs']; exact (prefix_append "  <path d='M 60.00 " _).
Qed.

(** ** Running the script *)

Lemma main_cases (json_load : string -> result json)
    (py_str : json -> string) (encodable : string -> bool)
    (resolve : string -> string -> string) (w : world) :
  main json_load py_str encodable resolve w =
  match files w !! DATA_PATH with
  | None => (Raise FileNotFoundError, w)
  | Some text =>
      match json_load text with
      | Raise e => (Raise e, w)
      | Ret payload =>
          match render py_str payload with
          | Raise e => (Raise e, w)
          | Ret svg =>
              if encodable svg then (Ret tt, done_world resolve w svg)
              else (Raise UnicodeEncodeError, truncated w)
          end
      end
  end.
Proof.
  unfold main, io_bind, read_text, io_lift, write_text.
  destruct (files w !! DATA_PATH) as [text|]; [| reflexivity].
  destruct (json_load text) as [payload|e]; [| reflexivity].
  destruct (render py_str payload) as [svg|e]; [| reflexivity].
  destruct (encodable svg); reflexivity.
Qed.

(** ** Claims about the scaled points *)





Lemma lookup_In {A} (l : list A) (i : nat) (a : A) : l !! i = Some a -> In a l.
Proof. intros H. apply list_elem_of_In. eapply list_elem_of_lookup_2, H. Qed.







(** C5: in every series of n > 1 points on which lines 19-27 complete, the
    division of line 25 does not raise and point i has
    x = padding + usable_width * i / (n - 1) in float arithmetic: the rounded
    quotient, added to 60.  This x is the exact value whenever that is a
    whole number, and lies between the whole numbers around it otherwise.
    The first point is at x = 60 exactly, and the path, the tenth entry of
    the document, starts with a move-to at 60.00.  Lines 19-27 complete on
    every series of ints and on every series of floats. *)
Theorem x_evenly_spread (values : list pynum) :
  (1 < length values)%nat ->
  (forall cs,
      coords values = Ret cs ->
      length cs = length values /\
      (forall i c,
          cs !! i = Some c ->
          int_truediv (usable_width * Z.of_nat i)
                      (Z.of_nat (length values) - 1) =
            Ret (div_round (usable_width * Z.of_nat i)
                           (Z.of_nat (length values) - 1)) /\
          c.1 = fadd (lit padding)
                     (div_round (usable_width * Z.of_nat i)
                                (Z.of_nat (length values) - 1)) /\
          is_finite c.1 = true /\
          inject_Z (Qfloor (x_exact (length values) i)) <= float_Q c.1 /\
          float_Q c.1 <= inject_Z (Qceiling (x_exact (length values) i))) /\
      padding = 60%Z /\
      (exists c0, cs !! 0%nat = Some c0 /\ float_Q c0.1 == 60) /\
      (forall labels shown,
          svg_lines cs labels shown !! 9%nat = Some (path_line cs)) /\
      String.prefix "  <path d='M 60.00 " (path_line cs) = true) /\
  (one_kind values -> exists cs, coords values = Ret cs).
Proof.
  intros Hn. split.
  - intros cs Hcs.
    destruct (coords_ret_inv _ _ Hcs) as (mn & mx & d & _ & _ & _ & Hlen & _).
    split; [exact Hlen |]. split; [| split; [reflexivity | split; [| split]]].
    + intros i c Hc. pose proof (lookup_lt_Some _ _ _ Hc) as Hi.
      rewrite Hlen in Hi.
      rewrite (coords_ret_x _ _ _ _ Hcs Hc).
      split.
      { apply int_truediv_ret; [lia |]. change usable_width with 780%Z. lia. }
      split.
      { unfold coord_x. now destruct (Nat.ltb_spec 1 (length values)); [| lia]. }
      exact (coord_x_between (length values) i Hn Hi).
    + destruct cs as [|c0 cs']; [simpl in Hlen; lia |].
      exists c0. split; [reflexivity |].
      rewrite (coords_ret_x _ _ 0%nat c0 Hcs eq_refl).
      rewrite coord_x_first by exact Hn. vm_compute. reflexivity.
    + intros labels shown. apply path_is_entry_9.
    + destruct cs as [|c0 cs']; [simpl in Hlen; lia |].
      apply path_line_first.
      rewrite (coords_ret_x _ _ 0%nat c0 Hcs eq_refl).
      now apply coord_x_first.
  - intros Hk. apply coords_one_kind; [| exact Hk].
    destruct values; [simpl in Hn; lia | discriminate].
Qed.

Lemma x_evenly_spread_witness :
  (1 < length [PInt 1000; PInt 1500; PInt 1200])%nat /\
  (forall cs,
      coords [PInt 1000; PInt 1500; PInt 1200] = Ret cs ->
      length cs = length [PInt 1000; PInt 1500; PInt 1200] /\
      (forall i c,
          cs !! i = Some c ->
          int_truediv (usable_width * Z.of_nat i)
                      (Z.of_nat (length [PInt 1000; PInt 1500; PInt 1200]) - 1)
          = Ret (div_round (usable_width * Z.of_nat i)
                   (Z.of_nat (length [PInt 1000; PInt 1500; PInt 1200]) - 1)) /\
          c.1 = fadd (lit padding)
                  (div_round (usable_width * Z.of_nat i)
                     (Z.of_nat (length [PInt 1000; PInt 1500; PInt 1200]) - 1))
          /\
          is_finite c.1 = true /\
          inject_Z (Qfloor (x_exact (length [PInt 1000; PInt 1500; PInt 1200])
                                    i)) <= float_Q c.1 /\
          float_Q c.1 <=
          inject_Z (Qceiling (x_exact (length [PInt 1000; PInt 1500; PInt 1200])
                                      i))) /\
      padding = 60%Z /\
      (exists c0, cs !! 0%nat = Some c0 /\ float_Q c0.1 == 60) /\
      (forall labels shown,
          svg_lines cs labels shown !! 9%nat = Some (path_line cs)) /\
      String.prefix "  <path d='M 60.00 " (path_line cs) = true) /\
  (one_kind [PInt 1000; PInt 1500; PInt 1200] ->
   exists cs, coords [PInt 1000; PInt 1500; PInt 1200] = Ret cs).
Proof.
  assert (H : (1 < length [PInt 1000; PInt 1500; PInt 1200])%nat)
    by (simpl; lia).
  split; [exact H |].
  exact (x_evenly_spread [PInt 1000; PInt 1500; PInt 1200] H).
Defined.

(** C6: for every series of exactly one point, whatever its value, the
    point has x = padding + usable_width / 2. *)
Theorem single_point_centered (values : list pynum) :
  length values = 1%nat ->
  exists c,
    coords values = Ret [c] /\
    is_finite c.1 = true /\
    float_Q c.1 == inject_Z padding + inject_Z usable_width / 2.
Proof.
  intros Hn.
  destruct values as [|v [|v' tl]]; try discriminate.
  destruct (coords_one_kind [v]) as [cs Hcs]; [discriminate | |].
  { destruct v; [left | right]; repeat constructor. }
  destruct (coords_ret_inv _ _ Hcs) as (mn & mx & d & _ & _ & _ & Hlen & _).
  destruct cs as [|c [|c' cs']]; try discriminate.
  exists c. split; [exact Hcs |].
  rewrite (coords_ret_x _ _ 0%nat c Hcs eq_refl).
  split; [reflexivity | vm_compute; reflexivity].
Qed.

Lemma single_point_centered_witness :
  length [PInt 1000] = 1%nat /\
  exists c,
    coords [PInt 1000] = Ret [c] /\
    is_finite c.1 = true /\
    float_Q c.1 == inject_Z padding + inject_Z usable_width / 2.
Proof.
  split; [reflexivity |]. exact (single_point_centered [PInt 1000] eq_refl).
Defined.




(** ** Claims about the emitted markup *)

(** C4: on every run that renders a non-empty series of n points, the loop
    of lines 23-27 has computed n scaled points, point i from value i by the
    loop body, and the rendered [svg_lines] hold exactly n circle markers, the
    markers of these points in the same order.  Every non-empty series of one
    kind whose ints have a float is rendered. *)
Theorem markers_match_points (py_str : json -> string)
    (series : list (string * pynum)) :
  series <> [] ->
  (forall text,
      render py_str (series_payload series) = Ret text ->
      exists cs shown mn mx d,
        coords (map snd series) = Ret cs /\
        length cs = length series /\
        py_min (map snd series) = Ret mn /\
        py_max (map snd series) = Ret mx /\
        py_sub mx mn = Ret d /\
        (forall i lv,
            series !! i = Some lv ->
            exists c, cs !! i = Some c /\
                      coord (length series) mn (or_1 d) i lv.2 = Ret c) /\
        rmap to_float (map snd series) = Ret shown /\
        text = String.concat nl
                 (svg_lines cs (map (fun lv => py_str (JStr lv.1)) series)
                            shown) /\
        List.filter is_circle
          (svg_lines cs (map (fun lv => py_str (JStr lv.1)) series) shown)
        = map circle_line cs /\
        length (List.filter is_circle
                  (svg_lines cs (map (fun lv => py_str (JStr lv.1)) series)
                             shown)) = length series) /\
  (one_kind (map snd series) ->
   Forall (fun v => fits v = true) (map snd series) ->
   exists text, render py_str (series_payload series) = Ret text).
Proof.
  intros Hne. split; [| now apply render_series_one_kind].
  intros text Hr.
  destruct (render_series_ret _ _ _ Hr) as (cs & shown & Hcs & Hsh & Lc & Ls & ->).
  destruct (coords_ret_inv _ _ Hcs)
    as (mn & mx & d & Emn & Emx & Ed & _ & Hl & _).
  rewrite length_map in Hl.
  assert (Hcirc : List.filter is_circle
            (svg_lines cs (map (fun lv => py_str (JStr lv.1)) series) shown)
            = map circle_line cs).
  { apply circles_of_svg_lines; [rewrite length_map |]; congruence. }
  exists cs, shown, mn, mx, d.
  split; [exact Hcs |]. split; [exact Lc |]. split; [exact Emn |].
  split; [exact Emx |]. split; [exact Ed |]. split.
  { intros i lv Hi. apply (Hl i lv.2).
    change (map snd series) with (snd <$> series).
    now rewrite list_lookup_fmap, Hi. }
  split; [exact Hsh |]. split; [reflexivity |]. split; [exact Hcirc |].
  rewrite Hcirc, length_map. exact Lc.
Qed.

Lemma markers_match_points_witness :
  example_series <> [] /\
  (forall text,
      render sample_str (series_payload example_series) = Ret text ->
      exists cs shown mn mx d,
        coords (map snd example_series) = Ret cs /\
        length cs = length example_series /\
        py_min (map snd example_series) = Ret mn /\
        py_max (map snd example_series) = Ret mx /\
        py_sub mx mn = Ret d /\
        (forall i lv,
            example_series !! i = Some lv ->
            exists c, cs !! i = Some c /\
                      coord (length example_series) mn (or_1 d) i lv.2
                      = Ret c) /\
        rmap to_float (map snd example_series) = Ret shown /\
        text = String.concat nl
                 (svg_lines cs
                    (map (fun lv => sample_str (JStr lv.1)) example_series)
                    shown) /\
        List.filter is_circle
          (svg_lines cs
             (map (fun lv => sample_str (JStr lv.1)) example_series) shown)
        = map circle_line cs /\
        length (List.filter is_circle
                  (svg_lines cs
                     (map (fun lv => sample_str (JStr lv.1)) example_series)
                     shown)) = length example_series) /\
  (one_kind (map snd example_series) ->
   Forall (fun v => fits v = true) (map snd example_series) ->
   exists text, render sample_str (series_payload example_series) = Ret text).
Proof.
  assert (H : example_series <> []) by discriminate.
  split; [exact H |].
  exact (markers_match_points sample_str example_series H).
Defined.

(** C8: on every run that renders a non-empty series, the rendered
    [svg_lines] hold exactly five gridlines, the lines of the loop of lines
    39-41 in order; gridline i is at y = padding + usable_height * i / 4,
    computed exactly, and runs from x = padding = 60 to
    x = width - padding = 840.  Every non-empty series of one kind whose ints
    have a float is rendered. *)
Theorem five_even_gridlines (py_str : json -> string)
    (series : list (string * pynum)) :
  series <> [] ->
  (forall text,
      render py_str (series_payload series) = Ret text ->
      exists cs shown,
        text = String.concat nl
                 (svg_lines cs (map (fun lv => py_str (JStr lv.1)) series)
                            shown) /\
        List.filter is_grid
          (svg_lines cs (map (fun lv => py_str (JStr lv.1)) series) shown)
        = map grid_line (seq 0 5) /\
        length (map grid_line (seq 0 5)) = 5%nat /\
        (forall i, (i < 5)%nat ->
           is_finite (grid_y i) = true /\
           float_Q (grid_y i) ==
           inject_Z padding +
           inject_Z usable_height * inject_Z (Z.of_nat i) / 4 /\
           grid_line i =
           "    <line x1='" +:+ pretty padding +:+ "' y1='" +:+
           fmt_2f (grid_y i) +:+ "' x2='" +:+ pretty (width - padding)%Z +:+
           "' y2='" +:+ fmt_2f (grid_y i) +:+ "' stroke-opacity='0.4' />") /\
        map grid_line (seq 0 5) =
        [ "    <line x1='60' y1='60.00' x2='840' y2='60.00' stroke-opacity='0.4' />";
          "    <line x1='60' y1='135.00' x2='840' y2='135.00' stroke-opacity='0.4' />";
          "    <line x1='60' y1='210.00' x2='840' y2='210.00' stroke-opacity='0.4' />";
          "    <line x1='60' y1='285.00' x2='840' y2='285.00' stroke-opacity='0.4' />";
          "    <line x1='60' y1='360.00' x2='840' y2='360.00' stroke-opacity='0.4' />" ]) /\
  (one_kind (map snd series) ->
   Forall (fun v => fits v = true) (map snd series) ->
   exists text, render py_str (series_payload series) = Ret text).
Proof.
  intros Hne. split; [| now apply render_series_one_kind].
  intros text Hr.
  destruct (render_series_ret _ _ _ Hr) as (cs & shown & _ & _ & _ & _ & ->).
  exists cs, shown. split; [reflexivity |].
  split; [apply grids_of_svg_lines |]. split; [reflexivity |]. split.
  - intros i Hi. destruct (grid_y_exact i Hi) as [Hf Hq].
    split; [exact Hf |]. split; [exact Hq | reflexivity].
  - exact grid_lines_text.
Qed.

Lemma five_even_gridlines_witness :
  example_series <> [] /\
  (forall text,
      render sample_str (series_payload example_series) = Ret text ->
      exists cs shown,
        text = String.concat nl
                 (svg_lines cs
                    (map (fun lv => sample_str (JStr lv.1)) example_series)
                    shown) /\
        List.filter is_grid
          (svg_lines cs
             (map (fun lv => sample_str (JStr lv.1)) example_series) shown)
        = map grid_line (seq 0 5) /\
        length (map grid_line (seq 0 5)) = 5%nat /\
        (forall i, (i < 5)%nat ->
           is_finite (grid_y i) = true /\
           float_Q (grid_y i) ==
           inject_Z padding +
           inject_Z usable_height * inject_Z (Z.of_nat i) / 4 /\
           grid_line i =
           "    <line x1='" +:+ pretty padding +:+ "' y1='" +:+
           fmt_2f (grid_y i) +:+ "' x2='" +:+ pretty (width - padding)%Z +:+
           "' y2='" +:+ fmt_2f (grid_y i) +:+ "' stroke-opacity='0.4' />") /\
        map grid_line (seq 0 5) =
        [ "    <line x1='60' y1='60.00' x2='840' y2='60.00' stroke-opacity='0.4' />";
          "    <line x1='60' y1='135.00' x2='840' y2='135.00' stroke-opacity='0.4' />";
          "    <line x1='60' y1='210.00' x2='840' y2='210.00' stroke-opacity='0.4' />";
          "    <line x1='60' y1='285.00' x2='840' y2='285.00' stroke-opacity='0.4' />";
          "    <line x1='60' y1='360.00' x2='840' y2='360.00' stroke-opacity='0.4' />" ]) /\
  (one_kind (map snd example_series) ->
   Forall (fun v => fits v = true) (map snd example_series) ->
   exists text, render sample_str (series_payload example_series) = Ret text).
Proof.
  assert (H : example_series <> []) by discriminate.
  split; [exact H |].
  exact (five_even_gridlines sample_str example_series H).
Defined.

(** A value beyond the float range: the ints render nothing.  The series of
    the one int 10^400 is scaled by lines 19-27, and line 48 raises
    [OverflowError] on formatting the value; the float 0.5 with the int
    10^400 raises at line 21 already. *)
Lemma huge_value_raises :
  (exists cs, coords [PInt (10 ^ 400)] = Ret cs) /\
  render sample_str (series_payload [("W1", PInt (10 ^ 400))])
    = Raise OverflowError /\
  coords [PFloat f_half; PInt (10 ^ 400)] = Raise OverflowError.
Proof.
  split; [eexists; vm_compute; reflexivity |].
  split; vm_compute; reflexivity.
Qed.

(** ** Claims about a run of the script *)

(** C2, as the code has it: on an input whose [points] array is empty the
    run raises before anything is written or printed, and what is raised is
    the [ValueError] of [min] on an empty list (line 19); no division is
    reached. *)
Theorem empty_series_raises_value_error (json_load : string -> result json)
    (py_str : json -> string) (encodable : string -> bool)
    (resolve : string -> string -> string) (w : world) (text : string)
    (payload : json) :
  files w !! DATA_PATH = Some text ->
  json_load text = Ret payload ->
  getitem "points" payload = Ret (JArr []) ->
  py_min [] = Raise ValueError /\
  coords [] = Raise ValueError /\
  main json_load py_str encodable resolve w = (Raise ValueError, w).
Proof.
  intros Hf Hl Hp. split; [reflexivity |]. split; [reflexivity |].
  rewrite main_cases, Hf, Hl.
  now rewrite (render_empty py_str payload Hp).
Qed.

Lemma empty_series_raises_value_error_witness :
  files (world_with empty_text) !! DATA_PATH = Some empty_text /\
  sample_load empty_text = Ret (series_payload []) /\
  getitem "points" (series_payload []) = Ret (JArr []) /\
  py_min [] = Raise ValueError /\
  coords [] = Raise ValueError /\
  main sample_load sample_str sample_encodable sample_resolve
       (world_with empty_text) =
    (Raise ValueError, world_with empty_text).
Proof.
  assert (H1 : files (world_with empty_text) !! DATA_PATH = Some empty_text)
    by reflexivity.
  assert (H2 : sample_load empty_text = Ret (series_payload []))
    by reflexivity.
  assert (H3 : getitem "points" (series_payload []) = Ret (JArr []))
    by reflexivity.
  split; [exact H1 |]. split; [exact H2 |]. split; [exact H3 |].
  exact (empty_series_raises_value_error sample_load sample_str
           sample_encodable sample_resolve
           (world_with empty_text) empty_text (series_payload []) H1 H2 H3).
Defined.

(** C2 as stated fails: the run on the input [{"points": []}] does fail, but
    with [ValueError], not with a division by zero. *)
Lemma empty_series_not_zero_division :
  (sample_main (world_with empty_text)).1 = Raise ValueError /\
  (sample_main (world_with empty_text)).1 <> Raise ZeroDivisionError.
Proof.
  assert (E : (sample_main (world_with empty_text)).1 = Raise ValueError)
    by (vm_compute; reflexivity).
  split; [exact E |]. rewrite E. discriminate.
Qed.






(** ** Which exceptions a run can raise *)

Lemma py_sub_raises (a b : pynum) (e : exn) :
  py_sub a b = Raise e -> e = OverflowError.
Proof.
  destruct a as [x|f], b as [y|g]; cbn [py_sub to_float rbind];
    try discriminate.
  - destruct (int_to_float x) as [fa|e'] eqn:Ea; cbn [rbind].
    + discriminate.
    + intros [= <-]. exact (to_float_raises (PInt x) _ Ea).
  - destruct (int_to_float y) as [fb|e'] eqn:Eb; cbn [rbind].
    + discriminate.
    + intros [= <-]. exact (to_float_raises (PInt y) _ Eb).
Qed.

Lemma int_truediv_raises (a b : Z) (e : exn) :
  (b <> 0)%Z -> int_truediv a b = Raise e -> e = OverflowError.
Proof.
  intros Hb. unfold int_truediv.
  destruct (Z.eqb_spec b 0) as [|_]; [contradiction |].
  destruct (float_limit * Z.abs b <=? Z.abs a)%Z; congruence.
Qed.

(** Dividing by a float that is not zero raises only when the dividend
    cannot be converted. *)
Lemma py_truediv_float (d : pynum) (g : float) (e : exn) :
  is_zero g = false -> py_truediv d (PFloat g) = Raise e -> e = OverflowError.
Proof.
  intros Hg. destruct d as [x|f]; cbn [py_truediv to_float rbind].
  - destruct (int_to_float x) as [fa|e'] eqn:Ea; cbn [rbind].
    + rewrite Hg. discriminate.
    + intros [= <-]. exact (to_float_raises (PInt x) _ Ea).
  - rewrite Hg. discriminate.
Qed.

Lemma py_truediv_int (d : pynum) (z : Z) (e : exn) :
  (z <> 0)%Z -> py_truediv d (PInt z) = Raise e -> e = OverflowError.
Proof.
  intros Hz. destruct d as [x|f]; cbn [py_truediv to_float rbind].
  - now apply int_truediv_raises.
  - unfold int_to_float. destruct (float_limit <=? Z.abs z)%Z; cbn [rbind].
    + congruence.
    + rewrite (float_of_Z_nonzero z Hz). discriminate.
Qed.

(** The division of line 26 never divides by zero: the range is truthy or
    is replaced by 1. *)
Lemma py_truediv_range_raises (d d0 : pynum) (e : exn) :
  py_truediv d (or_1 d0) = Raise e -> e = OverflowError.
Proof.
  unfold or_1. destruct (py_bool d0) eqn:Hb.
  - destruct d0 as [z|g]; simpl in Hb.
    + apply py_truediv_int. intros ->. discriminate.
    + apply py_truediv_float. now destruct (is_zero g).
  - now apply py_truediv_int.
Qed.

Lemma coord_raises (n : nat) (mn d0 : pynum) (i : nat) (v : pynum) (e : exn) :
  (i < n)%nat -> coord n mn (or_1 d0) i v = Raise e -> e = OverflowError.
Proof.
  intros Hi. rewrite coord_x_ret by exact Hi.
  destruct (py_sub v mn) as [d|e'] eqn:Ed; cbn [rbind].
  - destruct (py_truediv d (or_1 d0)) as [r|e'] eqn:Er; cbn [rbind];
      [discriminate |].
    intros [= <-]. exact (py_truediv_range_raises _ _ _ Er).
  - intros [= <-]. exact (py_sub_raises _ _ _ Ed).
Qed.

Lemma coords_raises (values : list pynum) (e : exn) :
  coords values = Raise e -> e = ValueError \/ e = OverflowError.
Proof.
  unfold coords. destruct values as [|v tl]; [intros [= <-]; now left |].
  cbn [py_min py_max rbind].
  destruct (py_sub _ _) as [d|e'] eqn:Ed; cbn [rbind].
  - intros H. right. apply rmap_raise in H. destruct H as ([i a] & Hin & H).
    apply enumerate_from_In in Hin. cbn [fst snd] in H.
    apply (coord_raises _ _ _ _ _ _ (proj2 (proj1 Hin)) H).
  - intros [= <-]. right. exact (py_sub_raises _ _ _ Ed).
Qed.

Lemma iter_raises (obj : json) (e : exn) : iter obj = Raise e -> e = TypeError.
Proof. destruct obj; simpl; congruence. Qed.

Lemma rmap_getitem_raises (key : string) (l : list json) (e : exn) :
  rmap (getitem key) l = Raise e -> e = KeyError \/ e = TypeError.
Proof.
  intros H. apply rmap_raise in H. destruct H as (a & _ & H).
  exact (getitem_raises _ _ _ H).
Qed.

Lemma render_raises (py_str : json -> string) (payload : json) (e : exn) :
  render py_str payload = Raise e ->
  e = KeyError \/ e = TypeError \/ e = ValueError \/ e = OverflowError.
Proof.
  unfold render.
  destruct (getitem "points" payload) as [points|e0] eqn:Ep; cbn [rbind].
  2:{ intros [= <-]. destruct (getitem_raises _ _ _ Ep); tauto. }
  destruct (iter points) as [ps|e0] eqn:Ei; cbn [rbind].
  2:{ intros [= <-]. apply iter_raises in Ei. tauto. }
  destruct (rmap (getitem "totalValue") ps) as [values|e0] eqn:Ev;
    cbn [rbind].
  2:{ intros [= <-]. destruct (rmap_getitem_raises _ _ _ Ev); tauto. }
  destruct (rmap (getitem "label") ps) as [labels|e0] eqn:El; cbn [rbind].
  2:{ intros [= <-]. destruct (rmap_getitem_raises _ _ _ El); tauto. }
  destruct (rmap number values) as [nums|e0] eqn:En; cbn [rbind].
  2:{ intros [= <-]. apply rmap_raise in En. destruct En as (a & _ & Ha).
      apply number_raises in Ha. tauto. }
  destruct (coords nums) as [cs|e0] eqn:Ec; cbn [rbind].
  2:{ intros [= <-]. destruct (coords_raises _ _ Ec); tauto. }
  destruct (rmap to_float nums) as [shown|e0] eqn:Es; cbn [rbind];
    [discriminate |].
  intros [= <-]. apply rmap_raise in Es. destruct Es as (a & _ & Ha).
  apply to_float_raises in Ha. tauto.
Qed.

(** X1: whatever the input file holds, a run that raises raises
    [FileNotFoundError], the exception of the decoder, [KeyError],
    [TypeError], [ValueError], [OverflowError] or [UnicodeEncodeError].
    Neither division of lines 25-26 divides by zero: unless the decoder
    itself raises it, [ZeroDivisionError] is never raised. *)
Theorem run_never_divides_by_zero (json_load : string -> result json)
    (py_str : json -> string) (encodable : string -> bool)
    (resolve : string -> string -> string) (w w' : world) (e : exn) :
  main json_load py_str encodable resolve w = (Raise e, w') ->
  (e = FileNotFoundError \/
   (exists text, files w !! DATA_PATH = Some text /\
                 json_load text = Raise e) \/
   e = KeyError \/ e = TypeError \/ e = ValueError \/ e = OverflowError \/
   e = UnicodeEncodeError) /\
  ((forall text, json_load text <> Raise ZeroDivisionError) ->
   e <> ZeroDivisionError).
Proof.
  intros H.
  assert (Hin : e = FileNotFoundError \/
                (exists text, files w !! DATA_PATH = Some text /\
                              json_load text = Raise e) \/
                e = KeyError \/ e = TypeError \/ e = ValueError \/
                e = OverflowError \/ e = UnicodeEncodeError).
  { rewrite main_cases in H.
    destruct (files w !! DATA_PATH) as [text|] eqn:Ef;
      [| injection H as <- _; tauto].
    destruct (json_load text) as [payload|e0] eqn:El.
    2:{ injection H as <- _. right. left. now exists text. }
    destruct (render py_str payload) as [svg|e0] eqn:Er.
    - destruct (encodable svg); [discriminate |].
      injection H as <- _. tauto.
    - injection H as <- _. apply render_raises in Er. tauto. }
  split; [exact Hin |]. intros Hdec.
  destruct Hin as [-> | [(text & _ & Hl) | [-> | [-> | [-> | [-> | ->]]]]]];
    try discriminate.
  intros ->. exact (Hdec text Hl).
Qed.

Lemma run_never_divides_by_zero_witness :
  main sample_load sample_str sample_encodable sample_resolve
       (world_with empty_text) = (Raise ValueError, world_with empty_text) /\
  (ValueError = FileNotFoundError \/
   (exists text, files (world_with empty_text) !! DATA_PATH = Some text /\
                 sample_load text = Raise ValueError) \/
   ValueError = KeyError \/ ValueError = TypeError \/
   ValueError = ValueError \/ ValueError = OverflowError \/
   ValueError = UnicodeEncodeError) /\
  ((forall text, sample_load text <> Raise ZeroDivisionError) ->
   ValueError <> ZeroDivisionError).
Proof.
  assert (H : main sample_load sample_str sample_encodable sample_resolve
                   (world_with empty_text) =
              (Raise ValueError, world_with empty_text)) by reflexivity.
  split; [exact H |].
  exact (run_never_divides_by_zero sample_load sample_str sample_encodable
           sample_resolve (world_with empty_text) (world_with empty_text)
           ValueError H).
Defined.

(** X18: an int beyond the float range is never drawn.  Every value of a
    series that is rendered has a float; a series of ints that holds one
    without a float is scaled by lines 19-27, and line 48 raises
    [OverflowError]. *)
Theorem int_beyond_float_range_raises (py_str : json -> string)
    (series : list (string * pynum)) :
  series <> [] ->
  (forall text, render py_str (series_payload series) = Ret text ->
                Forall (fun v => fits v = true) (map snd series)) /\
  (Forall (fun v => is_int v = true) (map snd series) ->
   Exists (fun v => fits v = false) (map snd series) ->
   (exists cs, coords (map snd series) = Ret cs) /\
   render py_str (series_payload series) = Raise OverflowError).
Proof.
  intros Hne. split.
  - intros text Hr.
    destruct (render_series_ret _ _ _ Hr) as (cs & shown & _ & Hs & _).
    exact (shown_fits _ _ Hs).
  - intros Hint Hex.
    destruct (coords_one_kind (map snd series)) as [cs Hcs];
      [now destruct series | now left |].
    split; [now exists cs |].
    rewrite render_series, Hcs. cbn [rbind].
    rewrite (rmap_some_raise to_float (map snd series) OverflowError).
    + reflexivity.
    + intros a e' _ Ha. exact (to_float_raises _ _ Ha).
    + apply Exists_exists in Hex. destruct Hex as (v & Hv & Hf).
      exists v. split; [now apply list_elem_of_In |].
      destruct (to_float v) as [f|e'] eqn:Ev.
      * assert (fits v = true) by (apply to_float_fits; now exists f).
        congruence.
      * now rewrite (to_float_raises _ _ Ev).
Qed.

Lemma int_beyond_float_range_raises_witness :
  [("W1", PInt (10 ^ 400))] <> [] /\
  (forall text,
      render sample_str (series_payload [("W1", PInt (10 ^ 400))]) = Ret text ->
      Forall (fun v => fits v = true) (map snd [("W1", PInt (10 ^ 400))])) /\
  (Forall (fun v => is_int v = true) (map snd [("W1", PInt (10 ^ 400))]) ->
   Exists (fun v => fits v = false) (map snd [("W1", PInt (10 ^ 400))]) ->
   (exists cs, coords (map snd [("W1", PInt (10 ^ 400))]) = Ret cs) /\
   render sample_str (series_payload [("W1", PInt (10 ^ 400))])
     = Raise OverflowError).
Proof.
  assert (H : [("W1", PInt (10 ^ 400))] <> []) by discriminate.
  split; [exact H |].
  exact (int_beyond_float_range_raises sample_str
           [("W1", PInt (10 ^ 400))] H).
Defined.

(** ** Malformed payloads *)

(** X5: a payload that decodes to anything but an object (an array, a
    string, a number, a Boolean, null) makes line 10 raise [TypeError]; the
    world is left as it was. *)
Theorem non_object_payload_type_error (json_load : string -> result json)
    (py_str : json -> string) (encodable : string -> bool)
    (resolve : string -> string -> string) (w : world) (text : string)
    (payload : json) :
  files w !! DATA_PATH = Some text ->
  json_load text = Ret payload ->
  (forall m, payload <> JObj m) ->
  main json_load py_str encodable resolve w = (Raise TypeError, w).
Proof.
  intros Hf Hl Hno. rewrite main_cases, Hf, Hl.
  destruct payload as [| | | | |m]; try reflexivity.
  now destruct (Hno m).
Qed.

Lemma non_object_payload_type_error_witness :
  files (world_with "[1, 2]") !! DATA_PATH = Some "[1, 2]" /\
  (fun _ : string => Ret (JArr [JNum (PInt 1); JNum (PInt 2)])) "[1, 2]" =
    Ret (JArr [JNum (PInt 1); JNum (PInt 2)]) /\
  (forall m, JArr [JNum (PInt 1); JNum (PInt 2)] <> JObj m) /\
  main (fun _ => Ret (JArr [JNum (PInt 1); JNum (PInt 2)])) sample_str
       sample_encodable sample_resolve
       (world_with "[1, 2]") = (Raise TypeError, world_with "[1, 2]").
Proof.
  assert (H1 : files (world_with "[1, 2]") !! DATA_PATH = Some "[1, 2]")
    by reflexivity.
  assert (H3 : forall m, JArr [JNum (PInt 1); JNum (PInt 2)] <> JObj m)
    by discriminate.
  split; [exact H1 |]. split; [reflexivity |]. split; [exact H3 |].
  exact (non_object_payload_type_error
           (fun _ => Ret (JArr [JNum (PInt 1); JNum (PInt 2)])) sample_str
           sample_encodable sample_resolve
           (world_with "[1, 2]") "[1, 2]"
           (JArr [JNum (PInt 1); JNum (PInt 2)]) H1 eq_refl H3).
Defined.

(** X6: when every element of [points] is an object and one of them lacks
    the key [totalValue] or the key [label], lines 11-12 raise [KeyError]. *)
Theorem missing_key_raises_key_error (py_str : json -> string)
    (ms : list (gmap string json)) :
  (exists m, In m ms /\ (m !! "totalValue" = None \/ m !! "label" = None)) ->
  render py_str (payload_of (map JObj ms)) = Raise KeyError.
Proof.
  intros (m & Hm & Hmiss). rewrite render_array.
  assert (Hin : In (JObj m) (map JObj ms)) by now apply in_map.
  destruct (rmap (getitem "totalValue") (map JObj ms)) as [values|e] eqn:Ev;
    simpl.
  - destruct Hmiss as [Hmiss | Hmiss].
    + destruct (rmap_ret_all _ _ _ _ Ev Hin) as (b & _ & Hb).
      simpl in Hb. rewrite Hmiss in Hb. discriminate.
    + rewrite (rmap_some_raise (getitem "label") (map JObj ms) KeyError);
        [reflexivity | |].
      * intros a e Ha He. eapply getitem_object_raises; eauto.
      * exists (JObj m). split; [exact Hin |]. simpl. now rewrite Hmiss.
  - apply rmap_raise in Ev. destruct Ev as (a & Ha & He).
    now rewrite (getitem_object_raises _ _ _ _ Ha He).
Qed.

Lemma missing_key_raises_key_error_witness :
  (exists m : gmap string json,
      In m [ {[ "label" := JStr "W1"; "totalValue" := JNum (PInt 1000) ]};
             {[ "label" := JStr "W2" ]} ] /\
      (m !! "totalValue" = None \/ m !! "label" = None)) /\
  render sample_str
    (payload_of (map JObj
       [ {[ "label" := JStr "W1"; "totalValue" := JNum (PInt 1000) ]};
         {[ "label" := JStr "W2" ]} ])) = Raise KeyError.
Proof.
  assert (H : exists m : gmap string json,
      In m [ {[ "label" := JStr "W1"; "totalValue" := JNum (PInt 1000) ]};
             {[ "label" := JStr "W2" ]} ] /\
      (m !! "totalValue" = None \/ m !! "label" = None)).
  { exists {[ "label" := JStr "W2" ]}. split; [right; now left |].
    left. reflexivity. }
  split; [exact H |].
  exact (missing_key_raises_key_error sample_str _ H).
Defined.

(** X7: when every element of [points] is an object with both keys and some
    [totalValue] is neither a number nor a Boolean (a string, null, an array,
    an object), lines 19-21 raise [TypeError]. *)
Theorem non_numeric_value_type_error (py_str : json -> string)
    (ms : list (gmap string json)) :
  (forall m, In m ms ->
             is_Some (m !! "totalValue") /\ is_Some (m !! "label")) ->
  (exists m v, In m ms /\ m !! "totalValue" = Some v /\
               (forall q, v <> JNum q) /\ (forall b, v <> JBool b)) ->
  render py_str (payload_of (map JObj ms)) = Raise TypeError.
Proof.
  intros Hall (m & v & Hm & Hv & Hq & Hb). rewrite render_array.
  assert (Hin : In (JObj m) (map JObj ms)) by now apply in_map.
  destruct (rmap (getitem "totalValue") (map JObj ms)) as [values|e] eqn:Ev.
  2:{ apply rmap_raise in Ev. destruct Ev as (a & Ha & He).
      apply in_map_iff in Ha. destruct Ha as (m' & <- & Hm').
      destruct (Hall m' Hm') as [[v' Hv'] _]. simpl in He.
      rewrite Hv' in He. discriminate. }
  destruct (rmap (getitem "label") (map JObj ms)) as [labels|e] eqn:El.
  2:{ apply rmap_raise in El. destruct El as (a & Ha & He).
      apply in_map_iff in Ha. destruct Ha as (m' & <- & Hm').
      destruct (Hall m' Hm') as [_ [l' Hl']]. simpl in He.
      rewrite Hl' in He. discriminate. }
  cbn [rbind].
  destruct (rmap_ret_all _ _ _ _ Ev Hin) as (v0 & Hv0 & Hg).
  simpl in Hg. rewrite Hv in Hg. injection Hg as <-.
  rewrite (rmap_some_raise number values TypeError); [reflexivity | |].
  - intros a e _ He. now apply number_raises in He.
  - exists v. split; [exact Hv0 |].
    destruct v as [|b|n| | |]; try reflexivity;
      [now destruct (Hb b) | now destruct (Hq n)].
Qed.

Lemma non_numeric_value_type_error_witness :
  (forall m : gmap string json,
      In m [ {[ "label" := JStr "W1"; "totalValue" := JStr "1000" ]} ] ->
      is_Some (m !! "totalValue") /\ is_Some (m !! "label")) /\
  (exists (m : gmap string json) v,
      In m [ {[ "label" := JStr "W1"; "totalValue" := JStr "1000" ]} ] /\
      m !! "totalValue" = Some v /\
      (forall q, v <> JNum q) /\ (forall b, v <> JBool b)) /\
  render sample_str
    (payload_of (map JObj
       [ {[ "label" := JStr "W1"; "totalValue" := JStr "1000" ]} ]))
  = Raise TypeError.
Proof.
  assert (H1 : forall m : gmap string json,
      In m [ {[ "label" := JStr "W1"; "totalValue" := JStr "1000" ]} ] ->
      is_Some (m !! "totalValue") /\ is_Some (m !! "label")).
  { intros m [<- | []]. split; eexists; reflexivity. }
  assert (H2 : exists (m : gmap string json) v,
      In m [ {[ "label" := JStr "W1"; "totalValue" := JStr "1000" ]} ] /\
      m !! "totalValue" = Some v /\
      (forall q, v <> JNum q) /\ (forall b, v <> JBool b)).
  { eexists _, (JStr "1000"). split; [now left |]. split; [reflexivity |].
    split; discriminate. }
  split; [exact H1 |]. split; [exact H2 |].
  exact (non_numeric_value_type_error sample_str _ H1 H2).
Defined.

(** X8: when [points] is not an array the run never succeeds.  An empty
    object or an empty string is iterated like an empty array and line 19
    raises [ValueError]; anything else raises [TypeError] (its elements are
    strings, or it cannot be iterated). *)
Theorem points_not_an_array (py_str : json -> string) (payload points : json) :
  getitem "points" payload = Ret points ->
  (forall l, points <> JArr l) ->
  (points = JObj ∅ \/ points = JStr "" ->
   render py_str payload = Raise ValueError) /\
  (points <> JObj ∅ -> points <> JStr "" ->
   render py_str payload = Raise TypeError).
Proof.
  intros Hp Hno. unfold render. rewrite Hp. simpl. split.
  - intros [-> | ->]; [| reflexivity].
    simpl. now rewrite map_to_list_empty.
  - intros Hobj Hstr. destruct points as [| | |s|l|m]; try reflexivity.
    + destruct s as [|c s]; [congruence | reflexivity].
    + now destruct (Hno l).
    + simpl. destruct (map_to_list m) as [|[k v] kvs] eqn:Em; [| reflexivity].
      apply map_to_list_empty_iff in Em. congruence.
Qed.

Lemma points_not_an_array_witness :
  getitem "points" (JObj {[ "points" := JStr "W1" ]}) = Ret (JStr "W1") /\
  (forall l, JStr "W1" <> JArr l) /\
  (JStr "W1" = JObj ∅ \/ JStr "W1" = JStr "" ->
   render sample_str (JObj {[ "points" := JStr "W1" ]}) = Raise ValueError) /\
  (JStr "W1" <> JObj ∅ -> JStr "W1" <> JStr "" ->
   render sample_str (JObj {[ "points" := JStr "W1" ]}) = Raise TypeError).
Proof.
  assert (H1 : getitem "points" (JObj {[ "points" := JStr "W1" ]})
               = Ret (JStr "W1")) by reflexivity.
  assert (H2 : forall l, JStr "W1" <> JArr l) by discriminate.
  split; [exact H1 |]. split; [exact H2 |].
  exact (points_not_an_array sample_str _ _ H1 H2).
Defined.

(** X9: only the key [points] of the payload and the keys [totalValue] and
    [label] of each point are read: another key, added to the payload or to
    every point, changes neither the rendered text nor the exception. *)
Theorem other_keys_are_ignored (py_str : json -> string) (k : string)
    (v : json) :
  k <> "points" -> k <> "totalValue" -> k <> "label" ->
  (forall m, render py_str (JObj (<[k := v]> m)) = render py_str (JObj m)) /\
  (forall ms,
      render py_str (payload_of (map JObj (map (insert k v) ms))) =
      render py_str (payload_of (map JObj ms))).
Proof.
  intros Hp Ht Hl. split.
  - intros m. unfold render, getitem at 1 3.
    now rewrite lookup_insert_ne by exact Hp.
  - intros ms. rewrite !render_array.
    now rewrite !rmap_getitem_insert by assumption.
Qed.

Lemma other_keys_are_ignored_witness :
  "note" <> "points" /\ "note" <> "totalValue" /\ "note" <> "label" /\
  (forall m, render sample_str (JObj (<["note" := JNull]> m)) =
             render sample_str (JObj m)) /\
  (forall ms,
      render sample_str
        (payload_of (map JObj (map (insert "note" JNull) ms))) =
      render sample_str (payload_of (map JObj ms))).
Proof.
  assert (H1 : "note" <> "points") by discriminate.
  assert (H2 : "note" <> "totalValue") by discriminate.
  assert (H3 : "note" <> "label") by discriminate.
  split; [exact H1 |]. split; [exact H2 |]. split; [exact H3 |].
  exact (other_keys_are_ignored sample_str "note" JNull H1 H2 H3).
Defined.

(** ** Successful runs *)


Lemma example_render :
  exists svg,
    render sample_str (series_payload example_series) = Ret svg /\
    sample_encodable svg = true.
Proof. eexists. split; vm_compute; reflexivity. Qed.


(** X3: a successful run changes the output file and nothing else: every
    other file, the input file among them, is as before, and exactly one
    line, the confirmation with the resolved output path, is printed. *)
Theorem successful_run_frame (json_load : string -> result json)
    (py_str : json -> string) (encodable : string -> bool)
    (resolve : string -> string -> string) (w w' : world) :
  main json_load py_str encodable resolve w = (Ret tt, w') ->
  (exists svg, files w' !! OUTPUT_PATH = Some svg) /\
  (forall path, path <> OUTPUT_PATH -> files w' !! path = files w !! path) /\
  files w' !! DATA_PATH = files w !! DATA_PATH /\
  cwd w' = cwd w /\
  stdout w' = stdout w ++
              ["Saved chart to " +:+ resolve (cwd w) OUTPUT_PATH].
Proof.
  rewrite main_cases.
  destruct (files w !! DATA_PATH) as [text|] eqn:Ef; [| discriminate].
  destruct (json_load text) as [payload|]; [| discriminate].
  destruct (render py_str payload) as [svg|]; [| discriminate].
  destruct (encodable svg); [| discriminate].
  intros [= <-]. simpl. split; [| split; [| split; [| split]]].
  - exists svg. apply lookup_insert_eq.
  - intros path Hp. now apply lookup_insert_ne.
  - rewrite lookup_insert_ne by discriminate. exact Ef.
  - reflexivity.
  - reflexivity.
Qed.

Lemma example_run (w : world) :
  files w !! DATA_PATH = Some example_text ->
  exists svg,
    main sample_load sample_str sample_encodable sample_resolve w =
    (Ret tt, done_world sample_resolve w svg).
Proof.
  intros Hf. destruct example_render as (svg & Hr & He). exists svg.
  rewrite main_cases, Hf.
  change (sample_load example_text)
    with (Ret (series_payload example_series)).
  cbv beta iota. now rewrite Hr, He.
Qed.

Lemma successful_run_frame_witness :
  exists w',
    main sample_load sample_str sample_encodable sample_resolve
         (world_stale example_text) = (Ret tt, w') /\
    (exists svg, files w' !! OUTPUT_PATH = Some svg) /\
    (forall path, path <> OUTPUT_PATH ->
                  files w' !! path = files (world_stale example_text) !! path) /\
    files w' !! DATA_PATH = files (world_stale example_text) !! DATA_PATH /\
    cwd w' = cwd (world_stale example_text) /\
    stdout w' = stdout (world_stale example_text) ++
                ["Saved chart to " +:+
                 sample_resolve (cwd (world_stale example_text)) OUTPUT_PATH].
Proof.
  destruct (example_run (world_stale example_text) eq_refl) as [svg H].
  eexists. split; [exact H |].
  exact (successful_run_frame sample_load sample_str sample_encodable
           sample_resolve (world_stale example_text) _ H).
Defined.

(** X4: running the script again after a success succeeds again and leaves
    the same files: the output is overwritten with the same text; only a
    second confirmation line is printed. *)
Theorem rerun_leaves_same_files (json_load : string -> result json)
    (py_str : json -> string) (encodable : string -> bool)
    (resolve : string -> string -> string) (w w' : world) :
  main json_load py_str encodable resolve w = (Ret tt, w') ->
  exists w'',
    main json_load py_str encodable resolve w' = (Ret tt, w'') /\
    files w'' = files w' /\
    stdout w'' = stdout w' ++
                 ["Saved chart to " +:+ resolve (cwd w) OUTPUT_PATH].
Proof.
  rewrite main_cases.
  destruct (files w !! DATA_PATH) as [text|] eqn:Ef; [| discriminate].
  destruct (json_load text) as [payload|] eqn:El; [| discriminate].
  destruct (render py_str payload) as [svg|] eqn:Er; [| discriminate].
  destruct (encodable svg) eqn:Ee; [| discriminate].
  intros [= <-]. rewrite main_cases. simpl.
  rewrite lookup_insert_ne by discriminate. rewrite Ef, El, Er, Ee.
  eexists. split; [reflexivity |]. simpl. split; [| reflexivity].
  apply insert_insert_eq.
Qed.

Lemma rerun_leaves_same_files_witness :
  exists w',
    main sample_load sample_str sample_encodable sample_resolve
         (world_with example_text) = (Ret tt, w') /\
    exists w'',
      main sample_load sample_str sample_encodable sample_resolve w'
        = (Ret tt, w'') /\
      files w'' = files w' /\
      stdout w'' = stdout w' ++
                   ["Saved chart to " +:+
                    sample_resolve (cwd (world_with example_text))
                                   OUTPUT_PATH].
Proof.
  destruct (example_run (world_with example_text) eq_refl) as [svg H].
  eexists. split; [exact H |].
  exact (rerun_leaves_same_files sample_load sample_str sample_encodable
           sample_resolve (world_with example_text) _ H).
Defined.

(** ** The horizontal and vertical spread *)

(** X10: on a run that completes on a series of n > 1 points, the first
    point is at x = padding and the last at x = width - padding, both
    exactly: the points span the whole usable width. *)
Theorem x_spans_usable_width (values : list pynum)
    (cs : list (float * float)) :
  (1 < length values)%nat ->
  coords values = Ret cs ->
  (exists c, cs !! 0%nat = Some c /\ is_finite c.1 = true /\
             float_Q c.1 == inject_Z padding) /\
  (exists c, cs !! (length values - 1)%nat = Some c /\
             is_finite c.1 = true /\
             float_Q c.1 == inject_Z (width - padding)).
Proof.
  intros Hn Hcs.
  destruct (coords_ret_inv _ _ Hcs) as (mn & mx & d & _ & _ & _ & Hlen & _).
  split.
  - destruct (lookup_lt_is_Some_2 cs 0%nat) as [c Hc]; [lia |].
    exists c. split; [exact Hc |].
    rewrite (coords_ret_x _ _ _ _ Hcs Hc), coord_x_first by exact Hn.
    split; [reflexivity | vm_compute; reflexivity].
  - destruct (lookup_lt_is_Some_2 cs (length values - 1)%nat) as [c Hc];
      [lia |].
    exists c. split; [exact Hc |].
    rewrite (coords_ret_x _ _ _ _ Hcs Hc).
    pose proof (coord_x_last (length values) Hn) as Hw.
    apply within_Q in Hw; [| unfold width, padding; lia | lia].
    destruct Hw as (Hf & Hl & Hh). split; [exact Hf |].
    now apply Qle_antisym.
Qed.

Lemma x_spans_usable_width_witness :
  exists cs,
    (1 < length [PInt 1000; PInt 1500; PInt 1200])%nat /\
    coords [PInt 1000; PInt 1500; PInt 1200] = Ret cs /\
    (exists c, cs !! 0%nat = Some c /\ is_finite c.1 = true /\
               float_Q c.1 == inject_Z padding) /\
    (exists c,
        cs !! (length [PInt 1000; PInt 1500; PInt 1200] - 1)%nat = Some c /\
        is_finite c.1 = true /\
        float_Q c.1 == inject_Z (width - padding)).
Proof.
  assert (H1 : (1 < length [PInt 1000; PInt 1500; PInt 1200])%nat)
    by (simpl; lia).
  eexists.
  assert (H2 : coords [PInt 1000; PInt 1500; PInt 1200] =
               Ret (map (fun iz => (coord_x 3 iz.1,
                                    coord_y (div_round (iz.2 - 1000) 500)))
                        (enumerate [1000; 1500; 1200]%Z)))
    by (exact (coords_ints [1000; 1500; 1200]%Z ltac:(discriminate))).
  split; [exact H1 |]. split; [exact H2 |].
  exact (x_spans_usable_width _ _ H1 H2).
Defined.

(** X11: in every non-empty series of ints a point holding the smallest
    value has y = height - padding (the lower edge of the usable area); when
    the values are not all equal, a point holding the largest value has
    y = padding (the upper edge). *)
Theorem extremes_on_edges (zs : list Z) :
  zs <> [] ->
  exists cs,
    coords (map PInt zs) = Ret cs /\
    (forall i z c,
        zs !! i = Some z -> cs !! i = Some c ->
        Forall (fun v => (z <= v)%Z) zs ->
        is_finite c.2 = true /\ float_Q c.2 == inject_Z (height - padding)) /\
    ((exists a b, In a zs /\ In b zs /\ a <> b) ->
     forall i z c,
       zs !! i = Some z -> cs !! i = Some c ->
       Forall (fun v => (v <= z)%Z) zs ->
       is_finite c.2 = true /\ float_Q c.2 == inject_Z padding).
Proof.
  intros Hne.
  destruct (coords_one_kind (map PInt zs)) as [cs Hcs].
  { now destruct zs. }
  { left. apply Forall_map. now apply Forall_forall. }
  exists cs. split; [exact Hcs |]. split.
  - intros i z c Hz Hc Hmin.
    rewrite (coords_ints_lookup zs cs i z Hcs Hz) in Hc.
    injection Hc as <-. cbn [snd].
    assert (Ez : z = zmin zs).
    { destruct (zmin_spec zs Hne) as [Hin Hle].
      rewrite Forall_forall in Hmin.
      apply list_elem_of_In in Hin. specialize (Hmin _ Hin).
      specialize (Hle z (lookup_In _ _ _ Hz)). lia. }
    rewrite Ez, Z.sub_diag, div_round_zero by now apply int_range_pos.
    rewrite coord_y_at_zero. split; [reflexivity | vm_compute; reflexivity].
  - intros Hneq i z c Hz Hc Hmax.
    rewrite (coords_ints_lookup zs cs i z Hcs Hz) in Hc.
    injection Hc as <-. cbn [snd].
    assert (Ez : z = zmax zs).
    { destruct (zmax_spec zs Hne) as [Hin Hle].
      rewrite Forall_forall in Hmax.
      apply list_elem_of_In in Hin. specialize (Hmax _ Hin).
      specialize (Hle z (lookup_In _ _ _ Hz)). lia. }
    rewrite Ez, <- (int_range_spread zs Hneq).
    rewrite coord_y_at_one by (apply div_round_self; now apply int_range_pos).
    split; [reflexivity | vm_compute; reflexivity].
Qed.

Lemma extremes_on_edges_witness :
  [1000; 1500; 1200]%Z <> [] /\
  exists cs,
    coords (map PInt [1000; 1500; 1200]%Z) = Ret cs /\
    (forall i z c,
        [1000; 1500; 1200]%Z !! i = Some z -> cs !! i = Some c ->
        Forall (fun v => (z <= v)%Z) [1000; 1500; 1200]%Z ->
        is_finite c.2 = true /\ float_Q c.2 == inject_Z (height - padding)) /\
    ((exists a b, In a [1000; 1500; 1200]%Z /\ In b [1000; 1500; 1200]%Z /\
                  a <> b) ->
     forall i z c,
       [1000; 1500; 1200]%Z !! i = Some z -> cs !! i = Some c ->
       Forall (fun v => (v <= z)%Z) [1000; 1500; 1200]%Z ->
       is_finite c.2 = true /\ float_Q c.2 == inject_Z padding).
Proof.
  assert (H : [1000; 1500; 1200]%Z <> []) by discriminate.
  split; [exact H |]. exact (extremes_on_edges [1000; 1500; 1200]%Z H).
Defined.

(** ** The shape of the document *)

(** X13: on every run that renders a series of n points the document has
    3 n + 12 entries: it opens with the [svg] start tag carrying the fixed
    900 x 420 size and closes with the [svg] end tag. *)
Theorem document_shape (py_str : json -> string)
    (series : list (string * pynum)) (text : string) :
  render py_str (series_payload series) = Ret text ->
  exists cs shown,
    text = String.concat nl
             (svg_lines cs (map (fun lv => py_str (JStr lv.1)) series)
                        shown) /\
    length (svg_lines cs (map (fun lv => py_str (JStr lv.1)) series) shown)
      = (3 * length series + 12)%nat /\
    head (svg_lines cs (map (fun lv => py_str (JStr lv.1)) series) shown) =
      Some "<svg xmlns='http://www.w3.org/2000/svg' width='900' height='420' viewBox='0 0 900 420'>" /\
    last (svg_lines cs (map (fun lv => py_str (JStr lv.1)) series) shown)
      = Some "</svg>".
Proof.
  intros Hr.
  destruct (render_series_ret _ _ _ Hr) as (cs & shown & _ & _ & Lc & Ls & ->).
  exists cs, shown. split; [reflexivity |]. split; [| split].
  - unfold svg_lines. rewrite !length_app, point_lines_length
      by (rewrite ?length_map; congruence).
    rewrite Lc. simpl. lia.
  - unfold svg_lines, svg_open. vm_compute. reflexivity.
  - unfold svg_lines. rewrite !app_assoc. apply last_two.
Qed.

Lemma document_shape_witness :
  exists text,
    render sample_str (series_payload example_series) = Ret text /\
    exists cs shown,
      text = String.concat nl
               (svg_lines cs
                  (map (fun lv => sample_str (JStr lv.1)) example_series)
                  shown) /\
      length (svg_lines cs
                (map (fun lv => sample_str (JStr lv.1)) example_series)
                shown) = (3 * length example_series + 12)%nat /\
      head (svg_lines cs
              (map (fun lv => sample_str (JStr lv.1)) example_series) shown) =
        Some "<svg xmlns='http://www.w3.org/2000/svg' width='900' height='420' viewBox='0 0 900 420'>" /\
      last (svg_lines cs
              (map (fun lv => sample_str (JStr lv.1)) example_series) shown)
        = Some "</svg>".
Proof.
  destruct example_render as (svg & Hr & _).
  exists svg. split; [exact Hr |].
  exact (document_shape sample_str example_series svg Hr).
Defined.

(** X14: a series of one point with a finite value is drawn the same
    whatever the value: the point is at x = 450, the middle of the width, and
    y = 360, the lower edge, and the path is a single move-to with no line
    segment.  With an infinite value the range is NaN and so is y. *)
Theorem single_point_chart (v : pynum) :
  (py_finite v = true ->
   exists c,
     coords [v] = Ret [c] /\
     float_Q c.1 == 450 /\ float_Q c.2 == 360 /\
     is_finite c.1 = true /\ is_finite c.2 = true /\
     path_d [c] = "M 450.00 360.00") /\
  (forall s,
      v = PFloat (S754_infinity s) ->
      exists c,
        coords [v] = Ret [c] /\ float_Q c.1 == 450 /\ c.2 = S754_nan /\
        path_d [c] = "M 450.00 nan").
Proof.
  split.
  - intros Hfin. exists (lit 450, lit 360). split.
    + destruct v as [z|f].
      * apply (coords_flat_ints z []). constructor.
      * apply (coords_flat_floats f [] Hfin). constructor.
    + repeat split; vm_compute; reflexivity.
  - intros s ->. exists (lit 450, S754_nan).
    destruct s; repeat split; vm_compute; reflexivity.
Qed.

(** X17: the entries of point i stand together, after the ten entries of
    the frame, the grid and the path: its marker at index 10 + 3 i, then its
    label text, then its value text. *)
Theorem point_entries_are_adjacent (cs : list (float * float))
    (labels : list string) (values : list float) (i : nat)
    (c : float * float) (l : string) (v : float) :
  cs !! i = Some c -> labels !! i = Some l -> values !! i = Some v ->
  svg_lines cs labels values !! (10 + 3 * i)%nat = Some (circle_line c) /\
  svg_lines cs labels values !! (11 + 3 * i)%nat = Some (label_line c l) /\
  svg_lines cs labels values !! (12 + 3 * i)%nat = Some (value_line c v).
Proof.
  intros Hc Hl Hv.
  pose proof (zip3_lookup cs labels values i c l v Hc Hl Hv) as Hz.
  assert (Hk : forall k, (k < 3)%nat ->
             svg_lines cs labels values !! (10 + (3 * i + k))%nat =
             point_lines (c, (l, v)) !! k).
  { intros k Hk. unfold svg_lines.
    change (svg_open ++ map grid_line (seq 0 5) ++ ["  </g>"] ++
            [path_line cs] ++ ?rest)
      with ((svg_open ++ map grid_line (seq 0 5) ++ ["  </g>"] ++
             [path_line cs]) ++ rest).
    rewrite lookup_app_r by (simpl; lia).
    replace (10 + (3 * i + k) -
             length (svg_open ++ map grid_line (seq 0 5) ++ ["  </g>"] ++
                     [path_line cs]))%nat
      with (3 * i + k)%nat by (simpl; lia).
    rewrite lookup_app_l.
    - now apply point_lines_lookup.
    - apply lookup_lt_is_Some_1. rewrite (point_lines_lookup _ _ _ _ Hz Hk).
      destruct k as [|[|[|k]]]; simpl; eauto. lia. }
  split; [| split].
  - replace (10 + 3 * i)%nat with (10 + (3 * i + 0))%nat by lia.
    now rewrite Hk by lia.
  - replace (11 + 3 * i)%nat with (10 + (3 * i + 1))%nat by lia.
    now rewrite Hk by lia.
  - replace (12 + 3 * i)%nat with (10 + (3 * i + 2))%nat by lia.
    now rewrite Hk by lia.
Qed.

Lemma point_entries_are_adjacent_witness :
  [(lit 60, lit 360); (lit 840, lit 60)] !! 1%nat = Some (lit 840, lit 60) /\
  ["W1"; "W2"] !! 1%nat = Some "W2" /\
  [lit 1000; lit 1500] !! 1%nat = Some (lit 1500) /\
  svg_lines [(lit 60, lit 360); (lit 840, lit 60)] ["W1"; "W2"]
            [lit 1000; lit 1500]
    !! (10 + 3 * 1)%nat = Some (circle_line (lit 840, lit 60)) /\
  svg_lines [(lit 60, lit 360); (lit 840, lit 60)] ["W1"; "W2"]
            [lit 1000; lit 1500]
    !! (11 + 3 * 1)%nat = Some (label_line (lit 840, lit 60) "W2") /\
  svg_lines [(lit 60, lit 360); (lit 840, lit 60)] ["W1"; "W2"]
            [lit 1000; lit 1500]
    !! (12 + 3 * 1)%nat = Some (value_line (lit 840, lit 60) (lit 1500)).
Proof.
  split; [reflexivity |]. split; [reflexivity |]. split; [reflexivity |].
  exact (point_entries_are_adjacent
           [(lit 60, lit 360); (lit 840, lit 60)] ["W1"; "W2"]
           [lit 1000; lit 1500] 1
           (lit 840, lit 60) "W2" (lit 1500) eq_refl eq_refl eq_refl).
Defined.

(** The example of the specification: three markers, a path that starts at
    x = 60, and W2, the largest value, highest on the canvas. *)
Example spec_example :
  exists cs c1 c2 c3 shown,
    coords (map snd example_series) = Ret cs /\ cs = [c1; c2; c3] /\
    rmap to_float (map snd example_series) = Ret shown /\
    length (List.filter is_circle
              (svg_lines cs (map fst example_series) shown)) = 3%nat /\
    path_d cs = "M 60.00 360.00 L 450.00 60.00 L 840.00 240.00" /\
    float_Q c2.2 < float_Q c1.2 /\ float_Q c2.2 < float_Q c3.2 /\
    (sample_main (world_with example_text)).1 = Ret tt.
Proof.
  do 5 eexists. split; [vm_compute; reflexivity |].
  split; [reflexivity |]. split; [vm_compute; reflexivity |].
  repeat split; vm_compute; reflexivity.
Qed.
